(** * extract-crdp-mapping: extraction of the CRDP event and command maps

    A shallow embedding of [lighthouse-core/scripts/extract-crdp-mapping.js].
    The script walks the syntax tree of the protocol typings, collects for
    every protocol domain the events of [<Domain>Client] and the commands of
    [<Domain>Commands], and renders both maps as text.

    Conventions of the embedding:
    - a JavaScript string is a [string]; its characters are code units, taken
      here in the 8-bit range;
    - a syntax-tree node is a value of [Node]; reading a property a node does
      not have gives [None] (JavaScript's [undefined]);
    - a function that can throw returns a [result]: [Ok v], or [Throw e] with
      [e] either an [Error] built by the script itself or a [TypeError] raised
      by the engine on a property read of [undefined];
    - a JavaScript [Map] is a list of key/value pairs in insertion order. *)

From Stdlib Require Import Bool Arith List Ascii String Lia.
From Stdlib Require Import DecimalString.
Import ListNotations.

Set Warnings "-register-all".

Local Open Scope list_scope.
Local Open Scope string_scope.

(** ** Exceptions and results *)

Inductive exn : Type :=
| Error (message : string)
| TypeError (property : string).

Inductive result (A : Type) : Type :=
| Ok (value : A)
| Throw (e : exn).

Arguments Ok {A} value.
Arguments Throw {A} e.

Definition bind {A B : Type} (r : result A) (k : A -> result B) : result B :=
  match r with
  | Ok a => k a
  | Throw e => Throw e
  end.

Notation "'let*' x ':=' r 'in' k" := (bind r (fun x => k))
  (at level 10, x pattern, r at level 100, k at level 200).

(** An [Error] is what the script throws with [throw new Error(...)]. *)
Definition isScriptError {A : Type} (r : result A) : Prop :=
  exists message, r = Throw (Error message).

(** ** Strings *)

Definition LF : string := String (ascii_of_nat 10) EmptyString.

(** [String(n)] for a non-negative integer, as template literals print it. *)
Definition numberToString (n : nat) : string :=
  NilZero.string_of_uint (Nat.to_uint n).

(** [s.slice(n)]. *)
Fixpoint slice (n : nat) (s : string) : string :=
  match n, s with
  | O, _ => s
  | S _, EmptyString => EmptyString
  | S n', String _ rest => slice n' rest
  end.

(** [s.repeat(n)]. *)
Fixpoint repeat (s : string) (n : nat) : string :=
  match n with
  | O => EmptyString
  | S n' => s ++ repeat s n'
  end.

Definition isUpperAZ (c : ascii) : bool :=
  let n := nat_of_ascii c in ((65 <=? n) && (n <=? 90))%nat.

Definition isLowerAZ (c : ascii) : bool :=
  let n := nat_of_ascii c in ((97 <=? n) && (n <=? 122))%nat.

(** [toLowerCase] on one code unit: A-Z, and the upper-case letters of
    Latin-1 (U+00C0 to U+00DE without the multiplication sign U+00D7). *)
Definition toLowerCase (c : ascii) : ascii :=
  let n := nat_of_ascii c in
  if (((65 <=? n) && (n <=? 90)) ||
      ((192 <=? n) && (n <=? 222) && negb (n =? 215)))%nat
  then ascii_of_nat (n + 32)
  else c.

(** [/^on[A-Z]/.test(s)]. *)
Definition test_on_AZ (s : string) : bool :=
  match s with
  | String "o" (String "n" (String c _)) => isUpperAZ c
  | _ => false
  end.

(** ** The syntax tree *)

(** [ts.EntityName]: an identifier or a qualified name [left.right]. *)
Inductive EntityName : Type :=
| Identifier (text : string)
| QualifiedName (left : EntityName) (right : string).

(** [ts.PropertyName], the name of an interface member. *)
Inductive PropertyName : Type :=
| IdentifierName (text : string)
| StringLiteralName (text : string)
| NumericLiteralName (text : string)
| ComputedPropertyName.

(** The nodes the script inspects. [questionToken] is [true] when the
    member carries the [?] token. [OtherNode] stands for any other kind of
    node, with its children in [ts.forEachChild] order. Names, tokens and
    modifiers are leaves that no test of the script accepts; they are fields,
    not children. *)
Inductive Node : Type :=
| SourceFile (statements : list Node)
| ModuleDeclaration (name : string) (body : option Node)
| ModuleBlock (statements : list Node)
| InterfaceDeclaration (name : string) (members : list Node)
| PropertySignature (name : PropertyName) (questionToken : bool)
                    (type : option Node)
| MethodSignature (name : PropertyName) (parameters : list Node)
                  (type : option Node)
| ParameterDeclaration (name : string) (type : option Node)
| TypeReference (typeName : EntityName) (typeArguments : option (list Node))
| FunctionType (parameters : list Node) (type : option Node)
| VoidKeyword
| OtherNode (children : list Node).

(** [identifier.escapedText] of the compiler API: a name that starts with two
    underscores is stored with a third one in front. *)
Definition escapedText (text : string) : string :=
  match text with
  | String "_" (String "_" _) => String "_" text
  | _ => text
  end.

(** Property reads. *)
Definition node_type (n : Node) : option Node :=
  match n with
  | PropertySignature _ _ t => t
  | MethodSignature _ _ t => t
  | ParameterDeclaration _ t => t
  | FunctionType _ t => t
  | _ => None
  end.

Definition node_parameters (n : Node) : option (list Node) :=
  match n with
  | MethodSignature _ ps _ => Some ps
  | FunctionType ps _ => Some ps
  | _ => None
  end.

Definition ofOption (o : option Node) : list Node :=
  match o with
  | Some n => [n]
  | None => []
  end.

(** The children [ts.forEachChild] visits, in its order. *)
Definition children (n : Node) : list Node :=
  match n with
  | SourceFile statements => statements
  | ModuleDeclaration _ body => ofOption body
  | ModuleBlock statements => statements
  | InterfaceDeclaration _ members => members
  | PropertySignature _ _ type => ofOption type
  | MethodSignature _ parameters type => (parameters ++ ofOption type)%list
  | ParameterDeclaration _ type => ofOption type
  | TypeReference _ typeArguments =>
      match typeArguments with Some l => l | None => [] end
  | FunctionType parameters type => (parameters ++ ofOption type)%list
  | VoidKeyword => []
  | OtherNode cs => cs
  end.

(** [ts.forEachChild(node, cb)]: the first truthy result of [cb]. *)
Fixpoint firstSome {A B : Type} (cb : A -> option B) (l : list A) : option B :=
  match l with
  | [] => None
  | x :: rest =>
      match cb x with
      | Some r => Some r
      | None => firstSome cb rest
      end
  end.

Definition forEachChild {B : Type} (node : Node) (cb : Node -> option B)
  : option B :=
  firstSome cb (children node).

(** ** findFirstInterfaceOrModule *)

Section Walker.
Variable targetName : string.

Fixpoint walker (node : Node) : option Node :=
  let each := fix each (l : list Node) : option Node :=
    match l with
    | [] => None
    | c :: rest =>
        match walker c with
        | Some r => Some r
        | None => each rest
        end
    end in
  let opt := fun o : option Node =>
    match o with
    | Some c => walker c
    | None => None
    end in
  match node with
  | InterfaceDeclaration name members =>
      if escapedText name =? targetName then Some node else each members
  | ModuleDeclaration name body =>
      if name =? targetName then Some node else opt body
  | SourceFile statements => each statements
  | ModuleBlock statements => each statements
  | PropertySignature _ _ type => opt type
  | MethodSignature _ parameters type =>
      match each parameters with
      | Some r => Some r
      | None => opt type
      end
  | ParameterDeclaration _ type => opt type
  | TypeReference _ typeArguments =>
      match typeArguments with
      | Some l => each l
      | None => None
      end
  | FunctionType parameters type =>
      match each parameters with
      | Some r => Some r
      | None => opt type
      end
  | VoidKeyword => None
  | OtherNode cs => each cs
  end.
End Walker.

Definition findFirstInterfaceOrModule (rootNode : Node) (targetName : string)
  : option Node :=
  walker targetName rootNode.

(** ** getCrdpDomainNames *)

Definition getCrdpDomainNames (node : Node) : result (list string) :=
  match findFirstInterfaceOrModule node "CrdpClient" with
  | None => Throw (Error "no `interface CrdpClient` found in typing file")
  | Some crdpClientInterface =>
      Ok (flat_map
            (fun node =>
               match node with
               | PropertySignature (IdentifierName text) _ _ => [text]
               | _ => []
               end)
            (children crdpClientInterface))
  end.

(** ** getTypeName *)

Record TypeName : Type := { domain : string; type : string }.

Definition getTypeName (typeNode : Node) (debugName : string)
  : result TypeName :=
  match typeNode with
  | TypeReference (QualifiedName leftName rightText) _ =>
      match leftName with
      | QualifiedName _ _ =>
          Throw (Error ("unsupported triple nested type name in " ++ debugName))
      | Identifier leftText => Ok {| domain := leftText; type := rightText |}
      end
  | TypeReference (Identifier _) _ =>
      Throw (Error ("unexpected type node in " ++ debugName))
  | _ => Throw (TypeError "kind")
  end.

(** ** getParamType *)

Definition getParamType (functionNode : Node) (debugName : string)
  : result (option Node) :=
  match node_parameters functionNode with
  | None => Throw (TypeError "length")
  | Some parameters =>
      let paramCount := List.length parameters in
      if (paramCount =? 1)%nat then
        match nth_error parameters 0 with
        | None => Throw (TypeError "type")
        | Some parameter =>
            match node_type parameter with
            | Some (TypeReference _ _ as paramType) => Ok (Some paramType)
            | _ => Throw (Error ("unexpected param passed to " ++ debugName))
            end
        end
      else if (1 <? paramCount)%nat then
        Throw (Error ("found " ++ numberToString paramCount ++
                      " parameters passed to " ++ debugName ++ "."))
      else Ok None
  end.

(** ** getEventListenerParamType *)

Definition getEventListenerParamType (methodNode : Node) (methodName : string)
  : result (option Node) :=
  match node_parameters methodNode with
  | None => Throw (TypeError "length")
  | Some parameters =>
      if (1 <? List.length parameters)%nat then
        Throw (Error ("found " ++ numberToString (List.length parameters) ++
                      " parameters passed to " ++ methodName ++ "."))
      else
        match nth_error parameters 0 with
        | None => Throw (TypeError "type")
        | Some parameter =>
            match node_type parameter with
            | Some (FunctionType _ _ as listenerTypeNode) =>
                getParamType listenerTypeNode methodName
            | _ =>
                Throw (Error ("found unexpected argument passed to " ++
                              methodName ++ "."))
            end
        end
  end.

(** ** Map *)

Definition Map (V : Type) : Type := list (string * V).

(** [map.set(key, value)]: an existing key keeps its place and takes the new
    value, a new key goes to the end. *)
Fixpoint set {V : Type} (m : Map V) (key : string) (value : V) : Map V :=
  match m with
  | [] => [(key, value)]
  | (k, v) :: rest =>
      if k =? key then (k, value) :: rest else (k, v) :: set rest key value
  end.

Fixpoint get {V : Type} (m : Map V) (key : string) : option V :=
  match m with
  | [] => None
  | (k, v) :: rest => if k =? key then Some v else get rest key
  end.

Definition keys {V : Type} (m : Map V) : list string := map fst m.

(** ** getEventMap *)

(** [methodName[2].toLowerCase() + methodName.slice(3)]. *)
Definition eventString (methodName : string) : result string :=
  match String.get 2 methodName with
  | None => Throw (TypeError "toLowerCase")
  | Some c => Ok (String (toLowerCase c) (slice 3 methodName))
  end.

(** One turn of the loop over the members: [None] for [continue], or the
    key and value given to [eventMap.set]. *)
Definition eventEntry (domainName : string) (member : Node)
  : result (option (string * string)) :=
  match member with
  | MethodSignature name _ _ =>
      match name with
      | IdentifierName methodName =>
          if negb (test_on_AZ methodName) then
            Throw (Error ("bad method name found: " ++ methodName))
          else
            let* eventString := eventString methodName in
            let eventName := domainName ++ "." ++ eventString in
            let* rawEventType := getEventListenerParamType member methodName in
            let* eventType :=
              match rawEventType with
              | Some rawEventType =>
                  let* n := getTypeName rawEventType methodName in
                  Ok ("Crdp." ++ domain n ++ "." ++ type n)
              | None => Ok "void"
              end in
            Ok (Some (eventName, eventType))
      | _ => Throw (Error "Bad event method found[object Object]")
      end
  | _ => Ok None
  end.

Fixpoint eventLoop (domainName : string) (members : list Node)
  (eventMap : Map string) : result (Map string) :=
  match members with
  | [] => Ok eventMap
  | member :: rest =>
      let* entry := eventEntry domainName member in
      match entry with
      | None => eventLoop domainName rest eventMap
      | Some (eventName, eventType) =>
          eventLoop domainName rest (set eventMap eventName eventType)
      end
  end.

Definition getEventMap (sourceRoot : Node) (domainName : string)
  : result (Map string) :=
  let eventInterfaceName := domainName ++ "Client" in
  match findFirstInterfaceOrModule sourceRoot eventInterfaceName with
  | Some (InterfaceDeclaration _ members) => eventLoop domainName members []
  | _ =>
      Throw (Error ("Events interface not found for domain '" ++
                    domainName ++ "'."))
  end.

(** ** getPromisedReturnType *)

Definition getPromisedReturnType (functionNode : Node) (debugName : string)
  : result string :=
  match node_type functionNode with
  | Some (TypeReference typeName typeArguments) =>
      match typeName, typeArguments with
      | Identifier text, Some typeArguments =>
          if negb (text =? "Promise") then
            Throw (Error ("command " ++ debugName ++
                          " has unexpected return type"))
          else if negb (List.length typeArguments =? 1)%nat then
            Throw (Error ("unexpected param(s) passed to " ++ debugName))
          else
            match nth_error typeArguments 0 with
            | None => Throw (TypeError "kind")
            | Some VoidKeyword => Ok "void"
            | Some (TypeReference _ _ as payloadType) =>
                let* n := getTypeName payloadType debugName in
                Ok (domain n ++ "." ++ type n)
            | Some _ => Throw (Error ("unexpected return type for " ++ debugName))
            end
      | _, _ =>
          Throw (Error ("command " ++ debugName ++
                        " has unexpected return type"))
      end
  | _ => Throw (Error ("unexpected return type for " ++ debugName))
  end.

(** ** isWeakInterface *)

Definition memberIsOptional (member : Node) : bool :=
  match member with
  | PropertySignature _ questionToken _ => questionToken
  | _ => true
  end.

Definition isWeakInterface (sourceRoot : Node)
  (domainName interfaceName : string) : result bool :=
  match findFirstInterfaceOrModule sourceRoot domainName with
  | Some (ModuleDeclaration _ _ as domainInterface) =>
      match findFirstInterfaceOrModule domainInterface interfaceName with
      | Some (InterfaceDeclaration _ members) =>
          Ok (forallb memberIsOptional members)
      | _ =>
          Throw (Error ("interface " ++ interfaceName ++ " not found within " ++
                        domainName ++ " domain"))
      end
  | _ => Throw (Error ("domain " ++ domainName ++ " not found"))
  end.

(** ** getCommandMap *)

Record CommandTypes : Type := { paramsType : string; returnType : string }.

Definition commandEntry (sourceRoot : Node) (domainName : string)
  (member : Node) : result (option (string * CommandTypes)) :=
  match member with
  | PropertySignature name _ memberType =>
      match name with
      | IdentifierName text =>
          let commandName := domainName ++ "." ++ text in
          match memberType with
          | Some (FunctionType _ _ as commandFn) =>
              let* rawParamsTypeNode := getParamType commandFn commandName in
              let* paramsType :=
                match rawParamsTypeNode with
                | Some rawParamsTypeNode =>
                    let* n := getTypeName rawParamsTypeNode commandName in
                    let paramsType := "Crdp." ++ domain n ++ "." ++ type n in
                    let* weak := isWeakInterface sourceRoot (domain n) (type n) in
                    if weak then Ok ("void | " ++ paramsType) else Ok paramsType
                | None => Ok "void"
                end in
              let* rawReturnTypeName :=
                getPromisedReturnType commandFn commandName in
              let returnType :=
                if rawReturnTypeName =? "void" then "void"
                else "Crdp." ++ rawReturnTypeName in
              Ok (Some (commandName,
                        {| paramsType := paramsType;
                           returnType := returnType |}))
          | _ =>
              Throw (Error ("Command " ++ commandName ++
                            " did not have an assigned function"))
          end
      | _ => Throw (Error "Bad event method found [object Object]")
      end
  | _ => Ok None
  end.

Fixpoint commandLoop (sourceRoot : Node) (domainName : string)
  (members : list Node) (commandMap : Map CommandTypes)
  : result (Map CommandTypes) :=
  match members with
  | [] => Ok commandMap
  | member :: rest =>
      let* entry := commandEntry sourceRoot domainName member in
      match entry with
      | None => commandLoop sourceRoot domainName rest commandMap
      | Some (commandName, types) =>
          commandLoop sourceRoot domainName rest
            (set commandMap commandName types)
      end
  end.

Definition getCommandMap (sourceRoot : Node) (domainName : string)
  : result (Map CommandTypes) :=
  let commandInterfaceName := domainName ++ "Commands" in
  match findFirstInterfaceOrModule sourceRoot commandInterfaceName with
  | Some (InterfaceDeclaration _ members) =>
      commandLoop sourceRoot domainName members []
  | _ =>
      Throw (Error ("Command interface not found for domain '" ++
                    domainName ++ "'."))
  end.

(** ** Rendering *)

Definition OUTPUT_EVENTS_NAME : string := "CrdpEvents".
Definition OUTPUT_COMMANDS_NAME : string := "CrdpCommands".

Definition newline (indentLevel : nat) : string :=
  LF ++ repeat "  " indentLevel.

(** The body of the loop over the entries of one event map. *)
Definition appendEvent (indentLevel : nat) (outputStr : string)
  (entry : string * string) : string :=
  let '(eventName, eventType) := entry in
  outputStr ++ newline (indentLevel + 1) ++
  "'" ++ eventName ++ "': " ++ eventType ++ ";".

Fixpoint eventDomainLoop (sourceRoot : Node) (domainNames : list string)
  (indentLevel : nat) (outputStr : string) : result string :=
  match domainNames with
  | [] => Ok outputStr
  | domainName :: rest =>
      let* eventMap := getEventMap sourceRoot domainName in
      eventDomainLoop sourceRoot rest indentLevel
        (fold_left (appendEvent indentLevel) eventMap outputStr)
  end.

Definition outputEventMap (sourceRoot : Node) (domainNames : list string)
  (indentLevel : nat) : result string :=
  let outputStr :=
    newline indentLevel ++ "export interface " ++ OUTPUT_EVENTS_NAME ++ " {" in
  let* outputStr :=
    eventDomainLoop sourceRoot domainNames indentLevel outputStr in
  Ok (outputStr ++ newline indentLevel ++ "}").

(** The body of the loop over the entries of one command map. *)
Definition appendCommand (indentLevel : nat) (outputStr : string)
  (entry : string * CommandTypes) : string :=
  let '(commandName, types) := entry in
  let outputStr :=
    outputStr ++ newline (indentLevel + 1) ++ "'" ++ commandName ++ "': {" in
  let outputStr :=
    outputStr ++ newline (indentLevel + 2) ++
    "paramsType: " ++ paramsType types ++ "," in
  let outputStr :=
    outputStr ++ newline (indentLevel + 2) ++
    "returnType: " ++ returnType types in
  outputStr ++ newline (indentLevel + 1) ++ "};".

Fixpoint commandDomainLoop (sourceRoot : Node) (domainNames : list string)
  (indentLevel : nat) (outputStr : string) : result string :=
  match domainNames with
  | [] => Ok outputStr
  | domainName :: rest =>
      let* commandsMap := getCommandMap sourceRoot domainName in
      commandDomainLoop sourceRoot rest indentLevel
        (fold_left (appendCommand indentLevel) commandsMap outputStr)
  end.

Definition outputCommandMap (sourceRoot : Node) (domainNames : list string)
  (indentLevel : nat) : result string :=
  let outputStr :=
    newline indentLevel ++ "export interface " ++ OUTPUT_COMMANDS_NAME ++ " {" in
  let* outputStr :=
    commandDomainLoop sourceRoot domainNames indentLevel outputStr in
  Ok (outputStr ++ newline indentLevel ++ "}").

(** ** The script *)

Section Script.
(** The licence comment and the [Generated by] line the script puts first:
    a constant text, which no step of the extraction reads. *)
Variable headerBlock : string.

(** The text handed to [fs.writeFileSync], from the parsed typings. *)
Definition crdpStr (sourceRoot : Node) : result string :=
  let* crdpDomainNames := getCrdpDomainNames sourceRoot in
  let crdpStr := headerBlock in
  let crdpStr := crdpStr ++ LF ++ "declare global {" ++ LF ++ "  module LH {" in
  let* events := outputEventMap sourceRoot crdpDomainNames 2 in
  let crdpStr := crdpStr ++ events in
  let crdpStr := crdpStr ++ LF in
  let* commands := outputCommandMap sourceRoot crdpDomainNames 2 in
  let crdpStr := crdpStr ++ commands in
  Ok (crdpStr ++ LF ++ "  }" ++ LF ++ "}" ++ LF ++ LF ++
      "// empty export to keep file a module" ++ LF ++ "export {}" ++ LF).
End Script.

(** ** A small typings file

<<
  export namespace Crdp {
    export module Network {
      interface RequestWillBeSentEvent { requestId: string; }
      interface GetCookiesRequest { urls?: string[]; }
      interface SetUserAgentOverrideRequest { userAgent: string; }
      interface GetCookiesResponse { cookies: Cookie[]; }
      interface Marker { (): void; }
    }
    interface NetworkCommands {
      enable: () => Promise<void>;
      getCookies: (params: Network.GetCookiesRequest) =>
        Promise<Network.GetCookiesResponse>;
      setUserAgentOverride:
        (params: Network.SetUserAgentOverrideRequest) => Promise<void>;
      mark: (params: Network.Marker) => Promise<void>;
    }
    interface NetworkClient {
      onRequestWillBeSent(
        listener: (params: Network.RequestWillBeSentEvent) => void): void;
      onLoadingFinished(listener: () => void): void;
    }
    interface CrdpClient { Network: NetworkClient; }
  }
>> *)

Module Sample.

Definition ref (d t : string) : Node :=
  TypeReference (QualifiedName (Identifier d) t) None.

Definition param (t : Node) : Node := ParameterDeclaration "params" (Some t).

Definition promise (t : Node) : Node :=
  TypeReference (Identifier "Promise") (Some [t]).

Definition prop (n : string) (optional : bool) : Node :=
  PropertySignature (IdentifierName n) optional (Some (OtherNode [])).

Definition listener (n : string) (ps : list Node) : Node :=
  MethodSignature (IdentifierName n)
    [ParameterDeclaration "listener" (Some (FunctionType ps (Some VoidKeyword)))]
    (Some VoidKeyword).

Definition command (n : string) (ps : list Node) (r : Node) : Node :=
  PropertySignature (IdentifierName n) false
    (Some (FunctionType ps (Some (promise r)))).

Definition NetworkModule : Node :=
  ModuleDeclaration "Network" (Some (ModuleBlock
    [ InterfaceDeclaration "RequestWillBeSentEvent" [prop "requestId" false];
      InterfaceDeclaration "GetCookiesRequest" [prop "urls" true];
      InterfaceDeclaration "SetUserAgentOverrideRequest"
        [prop "userAgent" false];
      InterfaceDeclaration "GetCookiesResponse" [prop "cookies" false];
      InterfaceDeclaration "Marker" [OtherNode []] ])).

Definition enable : Node := command "enable" [] VoidKeyword.

Definition NetworkCommands : Node :=
  InterfaceDeclaration "NetworkCommands"
    [ enable;
      command "getCookies" [param (ref "Network" "GetCookiesRequest")]
        (ref "Network" "GetCookiesResponse");
      command "setUserAgentOverride"
        [param (ref "Network" "SetUserAgentOverrideRequest")] VoidKeyword;
      command "mark" [param (ref "Network" "Marker")] VoidKeyword ].

Definition NetworkClient : Node :=
  InterfaceDeclaration "NetworkClient"
    [ listener "onRequestWillBeSent"
        [param (ref "Network" "RequestWillBeSentEvent")];
      listener "onLoadingFinished" [] ].

Definition CrdpClient : Node :=
  InterfaceDeclaration "CrdpClient"
    [ PropertySignature (IdentifierName "Network") false
        (Some (TypeReference (Identifier "NetworkClient") None)) ].

Definition sourceRoot : Node :=
  SourceFile
    [ ModuleDeclaration "Crdp" (Some (ModuleBlock
        [NetworkModule; NetworkCommands; NetworkClient; CrdpClient])) ].

(** The same file with a [NetworkClient] that declares
    [onDataReceived] twice:
<<
  interface NetworkClient {
    onDataReceived(listener: (params: Network.DataReceivedEvent) => void): void;
    onLoadingFinished(listener: () => void): void;
    onDataReceived(listener: (params: Network.LoadingFailedEvent) => void): void;
  }
>> *)
Definition duplicateMembers : list Node :=
  [ listener "onDataReceived" [param (ref "Network" "DataReceivedEvent")];
    listener "onLoadingFinished" [];
    listener "onDataReceived" [param (ref "Network" "LoadingFailedEvent")] ].

Definition duplicateRoot : Node :=
  SourceFile
    [ ModuleDeclaration "Crdp" (Some (ModuleBlock
        [ NetworkModule; NetworkCommands;
          InterfaceDeclaration "NetworkClient" duplicateMembers;
          CrdpClient ])) ].

End Sample.

(** ** Auxiliary definitions for the statements *)

(** What the search returns is an interface or a module of the wanted name. *)
Definition isNamed (targetName : string) (node : Node) : Prop :=
  match node with
  | InterfaceDeclaration name _ => escapedText name = targetName
  | ModuleDeclaration name _ => name = targetName
  | _ => False
  end.

(** A property of the node an optional field holds, if it holds one. *)
Definition ForallOption (P : Node -> Prop) (o : option Node) : Prop :=
  match o with
  | Some c => P c
  | None => True
  end.

(** Induction over the tree, children first. *)
Section NodeInduction.
Variable P : Node -> Prop.
Hypothesis HSourceFile : forall ss, Forall P ss -> P (SourceFile ss).
Hypothesis HModuleDeclaration :
  forall n b, ForallOption P b -> P (ModuleDeclaration n b).
Hypothesis HModuleBlock : forall ss, Forall P ss -> P (ModuleBlock ss).
Hypothesis HInterfaceDeclaration :
  forall n ms, Forall P ms -> P (InterfaceDeclaration n ms).
Hypothesis HPropertySignature :
  forall n q t, ForallOption P t -> P (PropertySignature n q t).
Hypothesis HMethodSignature :
  forall n ps t, Forall P ps -> ForallOption P t -> P (MethodSignature n ps t).
Hypothesis HParameterDeclaration :
  forall n t, ForallOption P t -> P (ParameterDeclaration n t).
Hypothesis HTypeReference :
  forall tn ta,
    match ta with Some l => Forall P l | None => True end ->
    P (TypeReference tn ta).
Hypothesis HFunctionType :
  forall ps t, Forall P ps -> ForallOption P t -> P (FunctionType ps t).
Hypothesis HVoidKeyword : P VoidKeyword.
Hypothesis HOtherNode : forall cs, Forall P cs -> P (OtherNode cs).

Fixpoint Node_children_ind (node : Node) : P node :=
  let all := fix all (l : list Node) : Forall P l :=
    match l with
    | [] => Forall_nil P
    | c :: rest => Forall_cons c (Node_children_ind c) (all rest)
    end in
  let opt := fun o : option Node =>
    match o return ForallOption P o with
    | Some c => Node_children_ind c
    | None => I
    end in
  match node with
  | SourceFile ss => HSourceFile ss (all ss)
  | ModuleDeclaration n b => HModuleDeclaration n b (opt b)
  | ModuleBlock ss => HModuleBlock ss (all ss)
  | InterfaceDeclaration n ms => HInterfaceDeclaration n ms (all ms)
  | PropertySignature n q t => HPropertySignature n q t (opt t)
  | MethodSignature n ps t => HMethodSignature n ps t (all ps) (opt t)
  | ParameterDeclaration n t => HParameterDeclaration n t (opt t)
  | TypeReference tn ta =>
      HTypeReference tn ta
        match ta return match ta with Some l => Forall P l | None => True end
        with
        | Some l => all l
        | None => I
        end
  | FunctionType ps t => HFunctionType ps t (all ps) (opt t)
  | VoidKeyword => HVoidKeyword
  | OtherNode cs => HOtherNode cs (all cs)
  end.
End NodeInduction.

(** The loop of [getEventMap] and of [getCommandMap], over any loop body. *)
Definition setEntry {V : Type} (m : Map V) (entry : option (string * V))
  : Map V :=
  match entry with
  | None => m
  | Some (key, value) => set m key value
  end.

Fixpoint memberLoop {V : Type} (entryOf : Node -> result (option (string * V)))
  (members : list Node) (m : Map V) : result (Map V) :=
  match members with
  | [] => Ok m
  | member :: rest =>
      let* entry := entryOf member in
      memberLoop entryOf rest (setEntry m entry)
  end.

(** The key a member gives to [set], if it gives one. *)
Definition keyOf {V : Type} (entryOf : Node -> result (option (string * V)))
  (member : Node) : option string :=
  match entryOf member with
  | Ok (Some (key, _)) => Some key
  | _ => None
  end.

Definition emittedKeys {V : Type}
  (entryOf : Node -> result (option (string * V))) (members : list Node)
  : list string :=
  flat_map (fun member => match keyOf entryOf member with
                          | Some key => [key]
                          | None => []
                          end) members.

(** A list of keys with every repetition after the first one dropped. *)
Fixpoint firstOccurrences (ks : list string) : list string :=
  match ks with
  | [] => []
  | k :: rest => k :: filter (fun k' => negb (k' =? k)) (firstOccurrences rest)
  end.

(** The member is a property signature called [text]. *)
Definition isPropertyNamed (text : string) (member : Node) : bool :=
  match member with
  | PropertySignature (IdentifierName t) _ _ => t =? text
  | _ => false
  end.

(** The member is a method signature called [text]. *)
Definition isMethodNamed (text : string) (member : Node) : bool :=
  match member with
  | MethodSignature (IdentifierName t) _ _ => t =? text
  | _ => false
  end.

Definition isPropertySignature (member : Node) : bool :=
  match member with
  | PropertySignature _ _ _ => true
  | _ => false
  end.

(** The number of identifiers of an entity name. *)
Fixpoint parts (name : EntityName) : nat :=
  match name with
  | Identifier _ => 1
  | QualifiedName l _ => S (parts l)
  end.

(** The shapes of a command's return type that [getPromisedReturnType]
    turns down. *)
Definition returnMissing (functionNode : Node) : Prop :=
  node_type functionNode = None.

Definition notWrapper (functionNode : Node) : Prop :=
  exists returnTypeNode,
    node_type functionNode = Some returnTypeNode /\
    forall typeArguments,
      returnTypeNode <> TypeReference (Identifier "Promise") typeArguments.

Definition wrongArity (functionNode : Node) : Prop :=
  exists typeArguments,
    node_type functionNode =
      Some (TypeReference (Identifier "Promise") typeArguments) /\
    forall payloadType, typeArguments <> Some [payloadType].

Definition badPayload (functionNode : Node) : Prop :=
  exists payloadType,
    node_type functionNode =
      Some (TypeReference (Identifier "Promise") (Some [payloadType])) /\
    payloadType <> VoidKeyword /\
    forall d t typeArguments,
      payloadType <> TypeReference (QualifiedName (Identifier d) t) typeArguments.

(** The return type is [Promise<void>] or [Promise<d.t>], and the text is
    the payload's. *)
Inductive promisedPayload (functionNode : Node) : string -> Prop :=
| promisedVoid :
    node_type functionNode =
      Some (TypeReference (Identifier "Promise") (Some [VoidKeyword])) ->
    promisedPayload functionNode "void"
| promisedReference (d t : string) (typeArguments : option (list Node)) :
    node_type functionNode =
      Some (TypeReference (Identifier "Promise")
              (Some [TypeReference (QualifiedName (Identifier d) t)
                       typeArguments])) ->
    promisedPayload functionNode (d ++ "." ++ t).

(** The text of one entry, and of a list of texts one after the other. *)
Definition renderEvent (indentLevel : nat) (entry : string * string) : string :=
  newline (indentLevel + 1) ++ "'" ++ fst entry ++ "': " ++ snd entry ++ ";".

Definition renderCommand (indentLevel : nat) (entry : string * CommandTypes)
  : string :=
  newline (indentLevel + 1) ++ "'" ++ fst entry ++ "': {" ++
  newline (indentLevel + 2) ++ "paramsType: " ++ paramsType (snd entry) ++ "," ++
  newline (indentLevel + 2) ++ "returnType: " ++ returnType (snd entry) ++
  newline (indentLevel + 1) ++ "};".

Definition concatStrings (l : list string) : string :=
  fold_right append "" l.

(** The name in a listener's event key. *)
Definition eventNameOf (methodName : string) : string :=
  match methodName with
  | String _ (String _ (String c rest)) => String (toLowerCase c) rest
  | _ => methodName
  end.

(** ** Auxiliary definitions for the tree search *)

(** The test of the walker: an interface or a module of the wanted name. *)
Definition isTarget (targetName : string) (node : Node) : bool :=
  match node with
  | InterfaceDeclaration name _ => escapedText name =? targetName
  | ModuleDeclaration name _ => name =? targetName
  | _ => false
  end.

(** The nodes of a tree in document order: a node, then the nodes of its
    children, in the order [ts.forEachChild] visits them. *)
Fixpoint preorder (node : Node) : list Node :=
  let each := fix each (l : list Node) : list Node :=
    match l with
    | [] => []
    | c :: rest => (preorder c ++ each rest)%list
    end in
  let opt := fun o : option Node =>
    match o with
    | Some c => preorder c
    | None => []
    end in
  node ::
  match node with
  | SourceFile statements => each statements
  | ModuleDeclaration _ body => opt body
  | ModuleBlock statements => each statements
  | InterfaceDeclaration _ members => each members
  | PropertySignature _ _ type => opt type
  | MethodSignature _ parameters type => (each parameters ++ opt type)%list
  | ParameterDeclaration _ type => opt type
  | TypeReference _ typeArguments =>
      match typeArguments with
      | Some l => each l
      | None => []
      end
  | FunctionType parameters type => (each parameters ++ opt type)%list
  | VoidKeyword => []
  | OtherNode cs => each cs
  end.

Definition isInterfaceDeclaration (node : Node) : bool :=
  match node with
  | InterfaceDeclaration _ _ => true
  | _ => false
  end.

Definition isModuleDeclaration (node : Node) : bool :=
  match node with
  | ModuleDeclaration _ _ => true
  | _ => false
  end.

Definition isMethodSignature (member : Node) : bool :=
  match member with
  | MethodSignature _ _ _ => true
  | _ => false
  end.

(** The text the script writes when there is no domain. *)
Definition emptyOutput (headerBlock : string) : string :=
  headerBlock ++ LF ++ "declare global {" ++ LF ++ "  module LH {" ++
  LF ++ "    export interface CrdpEvents {" ++ LF ++ "    }" ++ LF ++
  LF ++ "    export interface CrdpCommands {" ++ LF ++ "    }" ++
  LF ++ "  }" ++ LF ++ "}" ++ LF ++ LF ++
  "// empty export to keep file a module" ++ LF ++ "export {}" ++ LF.

(** The last character of a string. *)
Fixpoint lastChar (s : string) : option ascii :=
  match s with
  | EmptyString => None
  | String c rest =>
      match lastChar rest with
      | Some c' => Some c'
      | None => Some c
      end
  end.

(** ** More small typings files *)

Module Broken.

(** A [NetworkClient] whose second listener has no parameter, before a
    listener with a bad name:
<<
    interface NetworkClient {
      onLoadingFinished(listener: () => void): void;
      onDataReceived(): void;
      dataLost(listener: () => void): void;
    }
>> *)
Definition clientMembers : list Node :=
  [ Sample.listener "onLoadingFinished" [];
    MethodSignature (IdentifierName "onDataReceived") [] (Some VoidKeyword);
    Sample.listener "dataLost" [] ].

(** A [NetworkCommands] that declares [enable] twice:
<<
    interface NetworkCommands {
      enable: () => Promise<void>;
      disable: () => Promise<void>;
      enable: (params: Network.GetCookiesRequest) =>
        Promise<Network.GetCookiesResponse>;
    }
>> *)
Definition duplicateCommands : list Node :=
  [ Sample.enable;
    Sample.command "disable" [] VoidKeyword;
    Sample.command "enable"
      [Sample.param (Sample.ref "Network" "GetCookiesRequest")]
      (Sample.ref "Network" "GetCookiesResponse") ].

(** A [NetworkCommands] with a property that is no function:
<<
    interface NetworkCommands {
      enable: () => Promise<void>;
      version: string;
    }
>> *)
Definition brokenCommands : list Node :=
  [ Sample.enable;
    PropertySignature (IdentifierName "version") false
      (Some (OtherNode [])) ].

Definition root (clientMembers commandMembers : list Node) : Node :=
  SourceFile
    [ ModuleDeclaration "Crdp" (Some (ModuleBlock
        [ Sample.NetworkModule;
          InterfaceDeclaration "NetworkCommands" commandMembers;
          InterfaceDeclaration "NetworkClient" clientMembers;
          Sample.CrdpClient ])) ].

End Broken.

(** The text of a whole block, and of the whole file, from the maps of the
    domains. *)
Definition eventsBlock (indentLevel : nat) (maps : list (Map string))
  : string :=
  newline indentLevel ++ "export interface CrdpEvents {" ++
  concatStrings (map (renderEvent indentLevel) (List.concat maps)) ++
  newline indentLevel ++ "}".

Definition commandsBlock (indentLevel : nat) (maps : list (Map CommandTypes))
  : string :=
  newline indentLevel ++ "export interface CrdpCommands {" ++
  concatStrings (map (renderCommand indentLevel) (List.concat maps)) ++
  newline indentLevel ++ "}".

Definition fileText (headerBlock : string) (eventMaps : list (Map string))
  (commandMaps : list (Map CommandTypes)) : string :=
  headerBlock ++ LF ++ "declare global {" ++ LF ++ "  module LH {" ++
  eventsBlock 2 eventMaps ++ LF ++ commandsBlock 2 commandMaps ++
  LF ++ "  }" ++ LF ++ "}" ++ LF ++ LF ++
  "// empty export to keep file a module" ++ LF ++ "export {}" ++ LF.

(** ** The expected layout of the output

    The text as it has to look, written out with its blanks: one level of
    indentation is two spaces, the two blocks stand at level two, their
    entries at level three, and the fields of a command at level four. The
    entries come domain after domain, and within a domain in the order of
    the map. *)

Definition stableEventLine (entry : string * string) : string :=
  LF ++ "      '" ++ fst entry ++ "': " ++ snd entry ++ ";".

Definition stableCommandLines (entry : string * CommandTypes) : string :=
  LF ++ "      '" ++ fst entry ++ "': {" ++
  LF ++ "        paramsType: " ++ paramsType (snd entry) ++ "," ++
  LF ++ "        returnType: " ++ returnType (snd entry) ++
  LF ++ "      };".

Definition stableText (headerBlock : string) (eventMaps : list (Map string))
  (commandMaps : list (Map CommandTypes)) : string :=
  headerBlock ++
  LF ++ "declare global {" ++
  LF ++ "  module LH {" ++
  LF ++ "    export interface CrdpEvents {" ++
  concatStrings (map stableEventLine (List.concat eventMaps)) ++
  LF ++ "    }" ++
  LF ++
  LF ++ "    export interface CrdpCommands {" ++
  concatStrings (map stableCommandLines (List.concat commandMaps)) ++
  LF ++ "    }" ++
  LF ++ "  }" ++
  LF ++ "}" ++
  LF ++
  LF ++ "// empty export to keep file a module" ++
  LF ++ "export {}" ++
  LF.

(** The sample file with its declarations in another order, a statement in
    front and an interface nothing refers to:
<<
  declare const version: string;
  export namespace Crdp {
    interface CrdpClient { Network: NetworkClient; }
    interface Unused { }
    interface NetworkClient { ... }
    interface NetworkCommands { ... }
    export module Network { ... }
  }
>> *)
Definition reorderedSourceRoot : Node :=
  SourceFile
    [ OtherNode [];
      ModuleDeclaration "Crdp" (Some (ModuleBlock
        [ Sample.CrdpClient;
          InterfaceDeclaration "Unused" [];
          Sample.NetworkClient;
          Sample.NetworkCommands;
          Sample.NetworkModule ])) ].

(** * Properties *)

(** ** Strings *)

Lemma append_assoc (a b c : string) : (a ++ b) ++ c = a ++ (b ++ c).
Proof.
  induction a as [|x a IH]; simpl; [reflexivity | now rewrite IH].
Qed.

Lemma append_empty_r (a : string) : a ++ "" = a.
Proof.
  induction a as [|x a IH]; simpl; [reflexivity | now rewrite IH].
Qed.

Lemma length_append (a b : string) :
  String.length (a ++ b) = String.length a + String.length b.
Proof.
  induction a as [|x a IH]; simpl; [reflexivity | now rewrite IH].
Qed.

Lemma length_repeat (s : string) (n : nat) :
  String.length (repeat s n) = n * String.length s.
Proof.
  induction n as [|n IH]; simpl; [reflexivity|].
  rewrite length_append, IH. reflexivity.
Qed.

Lemma length_slice (n : nat) (s : string) :
  String.length (slice n s) = String.length s - n.
Proof.
  revert s. induction n as [|n IH]; intros s; simpl.
  - lia.
  - destruct s as [|c s]; simpl; [reflexivity | apply IH].
Qed.

(** A name accepted by the regular expression spells [on], an upper-case
    letter, and a remainder. *)
Lemma test_on_AZ_inv (s : string) :
  test_on_AZ s = true ->
  exists c rest, s = String "o" (String "n" (String c rest)) /\
                 isUpperAZ c = true.
Proof.
  unfold test_on_AZ. intros H.
  destruct s as [|a s]; [discriminate|].
  destruct s as [|b s];
    [destruct a as [[] [] [] [] [] [] [] []]; discriminate|].
  destruct s as [|c s];
    [destruct a as [[] [] [] [] [] [] [] []]; try discriminate;
     destruct b as [[] [] [] [] [] [] [] []]; discriminate|].
  destruct a as [[] [] [] [] [] [] [] []]; try discriminate.
  destruct b as [[] [] [] [] [] [] [] []]; try discriminate.
  exists c, s. split; [reflexivity | exact H].
Qed.

Lemma toLowerCase_upper (c : ascii) :
  isUpperAZ c = true -> isLowerAZ (toLowerCase c) = true.
Proof.
  destruct c as [[] [] [] [] [] [] [] []]; vm_compute; congruence.
Qed.

(** ** The walker visits children as [ts.forEachChild] hands them over *)

Lemma firstSome_app {A B : Type} (cb : A -> option B) (l1 l2 : list A) :
  firstSome cb (l1 ++ l2)%list =
  match firstSome cb l1 with
  | Some r => Some r
  | None => firstSome cb l2
  end.
Proof.
  induction l1 as [|x l1 IH]; simpl; [reflexivity|].
  destruct (cb x); [reflexivity | exact IH].
Qed.

Lemma walker_each (targetName : string) (l : list Node) :
  (fix each (l : list Node) : option Node :=
     match l with
     | [] => None
     | c :: rest =>
         match walker targetName c with
         | Some r => Some r
         | None => each rest
         end
     end) l = firstSome (walker targetName) l.
Proof.
  induction l as [|c l IH]; simpl; [reflexivity|].
  destruct (walker targetName c); [reflexivity | exact IH].
Qed.

Lemma walker_unfold (targetName : string) (node : Node) :
  walker targetName node =
  match node with
  | InterfaceDeclaration name _ =>
      if escapedText name =? targetName then Some node
      else forEachChild node (walker targetName)
  | ModuleDeclaration name _ =>
      if name =? targetName then Some node
      else forEachChild node (walker targetName)
  | _ => forEachChild node (walker targetName)
  end.
Proof.
  unfold forEachChild.
  destruct node as [ss|n b|ss|n ms|n q t|n ps t|n t|tn ta|ps t| |cs]; simpl;
    rewrite ?walker_each, ?firstSome_app; try reflexivity.
  - destruct (n =? targetName); [reflexivity|].
    destruct b as [c|]; simpl; [destruct (walker targetName c)|]; reflexivity.
  - destruct t as [c|]; simpl; [destruct (walker targetName c)|]; reflexivity.
  - destruct (firstSome (walker targetName) ps); [reflexivity|].
    destruct t as [c|]; simpl; [destruct (walker targetName c)|]; reflexivity.
  - destruct t as [c|]; simpl; [destruct (walker targetName c)|]; reflexivity.
  - destruct ta; [apply walker_each | reflexivity].
  - destruct (firstSome (walker targetName) ps); [reflexivity|].
    destruct t as [c|]; simpl; [destruct (walker targetName c)|]; reflexivity.
Qed.

Lemma firstSome_Forall {A B : Type} (cb : A -> option B) (Q : B -> Prop)
  (l : list A) :
  Forall (fun x => forall r, cb x = Some r -> Q r) l ->
  forall r, firstSome cb l = Some r -> Q r.
Proof.
  induction 1 as [|x l Hx _ IH]; simpl; intros r H; [discriminate|].
  destruct (cb x) as [y|] eqn:E.
  - injection H as <-. exact (Hx y eq_refl).
  - exact (IH r H).
Qed.

Lemma findFirstInterfaceOrModule_named (targetName : string) :
  forall rootNode found,
    findFirstInterfaceOrModule rootNode targetName = Some found ->
    isNamed targetName found.
Proof.
  unfold findFirstInterfaceOrModule.
  induction rootNode as [ss IH|n b IH|ss IH|n ms IH|n q t IH|n ps t IHp IH
                        |n t IH|tn ta IH|ps t IHp IH| |cs IH]
    using Node_children_ind;
    intros found; rewrite walker_unfold; unfold forEachChild; simpl;
    rewrite ?firstSome_app; intros H.
  - exact (firstSome_Forall _ _ _ IH _ H).
  - destruct (eqb_spec n targetName) as [e|ne].
    + injection H as <-. exact e.
    + destruct b as [c|]; simpl in H; [|discriminate].
      destruct (walker targetName c) eqn:E; [|discriminate].
      injection H as <-. exact (IH _ E).
  - exact (firstSome_Forall _ _ _ IH _ H).
  - destruct (eqb_spec (escapedText n) targetName) as [e|ne].
    + injection H as <-. exact e.
    + exact (firstSome_Forall _ _ _ IH _ H).
  - destruct t as [c|]; simpl in H; [|discriminate].
    destruct (walker targetName c) eqn:E; [|discriminate].
    injection H as <-. exact (IH _ E).
  - destruct (firstSome (walker targetName) ps) eqn:E.
    + injection H as <-. exact (firstSome_Forall _ _ _ IHp _ E).
    + destruct t as [c|]; simpl in H; [|discriminate].
      destruct (walker targetName c) eqn:E'; [|discriminate].
      injection H as <-. exact (IH _ E').
  - destruct t as [c|]; simpl in H; [|discriminate].
    destruct (walker targetName c) eqn:E; [|discriminate].
    injection H as <-. exact (IH _ E).
  - destruct ta as [l|]; [|discriminate].
    exact (firstSome_Forall _ _ _ IH _ H).
  - destruct (firstSome (walker targetName) ps) eqn:E.
    + injection H as <-. exact (firstSome_Forall _ _ _ IHp _ E).
    + destruct t as [c|]; simpl in H; [|discriminate].
      destruct (walker targetName c) eqn:E'; [|discriminate].
      injection H as <-. exact (IH _ E').
  - discriminate.
  - exact (firstSome_Forall _ _ _ IH _ H).
Qed.

(** ** Map *)

Lemma get_set_same {V : Type} (m : Map V) (k : string) (v : V) :
  get (set m k v) k = Some v.
Proof.
  induction m as [|[k' v'] m IH]; simpl.
  - now rewrite eqb_refl.
  - destruct (eqb_spec k' k) as [->|ne]; simpl.
    + now rewrite eqb_refl.
    + destruct (eqb_spec k' k); [contradiction | exact IH].
Qed.

Lemma get_set_other {V : Type} (m : Map V) (k k0 : string) (v : V) :
  k <> k0 -> get (set m k v) k0 = get m k0.
Proof.
  intros ne. induction m as [|[k' v'] m IH]; simpl.
  - destruct (eqb_spec k k0); [contradiction | reflexivity].
  - destruct (eqb_spec k' k) as [->|ne']; simpl.
    + destruct (eqb_spec k k0); [contradiction | reflexivity].
    + now rewrite IH.
Qed.

Lemma keys_set_in {V : Type} (m : Map V) (k : string) (v : V) :
  In k (keys m) -> keys (set m k v) = keys m.
Proof.
  induction m as [|[k' v'] m IH]; simpl; intros H; [contradiction|].
  destruct (eqb_spec k' k) as [->|ne]; simpl; [reflexivity|].
  f_equal. apply IH. destruct H; [contradiction | assumption].
Qed.

Lemma keys_set_notin {V : Type} (m : Map V) (k : string) (v : V) :
  ~ In k (keys m) -> keys (set m k v) = (keys m ++ [k])%list.
Proof.
  induction m as [|[k' v'] m IH]; simpl; intros H; [reflexivity|].
  destruct (eqb_spec k' k) as [->|ne]; simpl.
  - exfalso. apply H. now left.
  - f_equal. apply IH. intros Hin. apply H. now right.
Qed.

Lemma get_Some_in_keys {V : Type} (m : Map V) (k : string) (v : V) :
  get m k = Some v -> In k (keys m).
Proof.
  induction m as [|[k' v'] m IH]; simpl; [discriminate|].
  destruct (eqb_spec k' k) as [->|ne]; intros H; [now left | right; auto].
Qed.

(** ** The member loop *)

Lemma eventLoop_memberLoop (domainName : string) (members : list Node) :
  forall eventMap,
    eventLoop domainName members eventMap =
    memberLoop (eventEntry domainName) members eventMap.
Proof.
  induction members as [|member rest IH]; intros eventMap; simpl;
    [reflexivity|].
  destruct (eventEntry domainName member) as [[[k v]|]|e]; simpl;
    [apply IH | apply IH | reflexivity].
Qed.

Lemma commandLoop_memberLoop (sourceRoot : Node) (domainName : string)
  (members : list Node) :
  forall commandMap,
    commandLoop sourceRoot domainName members commandMap =
    memberLoop (commandEntry sourceRoot domainName) members commandMap.
Proof.
  induction members as [|member rest IH]; intros commandMap; simpl;
    [reflexivity|].
  destruct (commandEntry sourceRoot domainName member) as [[[k v]|]|e]; simpl;
    [apply IH | apply IH | reflexivity].
Qed.

Section MemberLoop.
Context {V : Type}.
Variable entryOf : Node -> result (option (string * V)).

Lemma memberLoop_app (pre post : list Node) :
  forall m,
    memberLoop entryOf (pre ++ post)%list m =
    let* m' := memberLoop entryOf pre m in memberLoop entryOf post m'.
Proof.
  induction pre as [|x pre IH]; intros m; simpl; [reflexivity|].
  destruct (entryOf x) as [entry|e]; simpl; [apply IH | reflexivity].
Qed.

(** The loop ends normally exactly when no member throws. *)
Lemma memberLoop_Ok_iff (members : list Node) :
  forall m,
    (exists m', memberLoop entryOf members m = Ok m') <->
    Forall (fun member => exists entry, entryOf member = Ok entry) members.
Proof.
  induction members as [|x rest IH]; intros m; simpl.
  - split; [constructor | intros _; now exists m].
  - destruct (entryOf x) as [entry|e] eqn:E; simpl.
    + rewrite IH. split.
      * intros H. constructor; [now exists entry | exact H].
      * intros H. now inversion H.
    + split.
      * intros [m' H]. discriminate.
      * intros H. inversion H as [|? ? [entry Hx] _]. congruence.
Qed.

(** A key no later member sets keeps its value to the end. *)
Lemma memberLoop_get_untouched (key : string) (members : list Node) :
  forallb (fun member => match keyOf entryOf member with
                         | Some k => negb (k =? key)
                         | None => true
                         end) members = true ->
  forall m m',
    memberLoop entryOf members m = Ok m' -> get m' key = get m key.
Proof.
  induction members as [|x rest IH]; simpl; intros Hk m m' H.
  - now injection H as <-.
  - apply andb_true_iff in Hk as [Hx Hrest].
    unfold keyOf in Hx.
    destruct (entryOf x) as [entry|e]; simpl in H; [|discriminate].
    rewrite (IH Hrest _ _ H).
    destruct entry as [[k v]|]; simpl; [|reflexivity].
    apply get_set_other. apply negb_true_iff, eqb_neq in Hx. exact Hx.
Qed.

(** The value of a key at the end is the one its last member gave. *)
Lemma memberLoop_get_last (key : string) (value : V)
  (pre post : list Node) (member : Node) :
  entryOf member = Ok (Some (key, value)) ->
  forallb (fun member => match keyOf entryOf member with
                         | Some k => negb (k =? key)
                         | None => true
                         end) post = true ->
  forall m m',
    memberLoop entryOf (pre ++ member :: post)%list m = Ok m' ->
    get m' key = Some value.
Proof.
  intros Hm Hpost m m' H.
  rewrite memberLoop_app in H.
  destruct (memberLoop entryOf pre m) as [m1|e]; simpl in H; [|discriminate].
  rewrite Hm in H. simpl in H.
  rewrite (memberLoop_get_untouched key post Hpost _ _ H).
  apply get_set_same.
Qed.

Lemma filter_filter {A : Type} (p q : A -> bool) (l : list A) :
  filter p (filter q l) = filter (fun x => p x && q x) l.
Proof.
  induction l as [|x l IH]; simpl; [reflexivity|].
  destruct (q x); simpl.
  - rewrite andb_true_r. destruct (p x); now rewrite IH.
  - now rewrite andb_false_r.
Qed.

Lemma existsb_eqb_In (k : string) (l : list string) :
  existsb (String.eqb k) l = true <-> In k l.
Proof.
  rewrite existsb_exists. split.
  - intros [x [Hin Hx]]. apply eqb_eq in Hx. now subst.
  - intros Hin. exists k. split; [exact Hin | apply eqb_refl].
Qed.

(** The keys of the map come in the order of their first [set]. *)
Lemma memberLoop_keys (members : list Node) :
  forall m m',
    memberLoop entryOf members m = Ok m' ->
    keys m' =
    (keys m ++
     filter (fun k => negb (existsb (String.eqb k) (keys m)))
            (firstOccurrences (emittedKeys entryOf members)))%list.
Proof.
  induction members as [|x rest IH]; simpl; intros m m' H.
  - injection H as <-. now rewrite app_nil_r.
  - unfold emittedKeys in *. simpl. unfold keyOf at 1.
    destruct (entryOf x) as [[[k v]|]|e]; simpl in H; [| |discriminate].
    + rewrite (IH _ _ H). simpl.
      destruct (existsb (String.eqb k) (keys m)) eqn:E; simpl.
      * apply existsb_eqb_In in E. rewrite (keys_set_in _ _ _ E).
        f_equal. rewrite filter_filter. apply filter_ext_in.
        intros a _. destruct (eqb_spec a k) as [->|ne]; simpl.
        -- apply existsb_eqb_In in E. rewrite E. reflexivity.
        -- now rewrite andb_true_r.
      * assert (Hn : ~ In k (keys m)).
        { intros Hin. apply existsb_eqb_In in Hin. congruence. }
        rewrite (keys_set_notin _ _ _ Hn), <- app_assoc. simpl.
        do 2 f_equal. rewrite filter_filter. apply filter_ext.
        intros a. rewrite existsb_app. simpl. rewrite orb_false_r.
        now rewrite negb_orb.
    + simpl. exact (IH _ _ H).
Qed.

Lemma NoDup_firstOccurrences (ks : list string) :
  NoDup (firstOccurrences ks).
Proof.
  induction ks as [|k ks IH]; simpl; constructor.
  - intros Hin. apply filter_In in Hin as [_ Hk].
    now rewrite eqb_refl in Hk.
  - now apply NoDup_filter.
Qed.

Lemma In_firstOccurrences (k : string) (ks : list string) :
  In k (firstOccurrences ks) <-> In k ks.
Proof.
  induction ks as [|k0 ks IH]; simpl; [reflexivity|].
  rewrite filter_In, IH.
  destruct (eqb_spec k k0) as [->|ne]; simpl.
  - split; intros _; now left.
  - split.
    + intros [->|[H _]]; [now left | now right].
    + intros [->|H]; [now left | right; now split].
Qed.

(** From the empty map: the keys are those the members gave, each once, in
    the order of their first appearance. *)
Lemma memberLoop_keys_empty (members : list Node) (m : Map V) :
  memberLoop entryOf members [] = Ok m ->
  keys m = firstOccurrences (emittedKeys entryOf members).
Proof.
  intros H. rewrite (memberLoop_keys _ _ _ H). simpl.
  apply forallb_filter_id. apply forallb_forall. reflexivity.
Qed.
End MemberLoop.

(** ** getTypeName *)

(** C7. On a type reference [getTypeName] has three outcomes and no other:
    a name of two parts [d.t] gives the pair of [d] and [t]; a name of three
    parts or more throws the error about a triple nested type name; a name
    that is a plain identifier throws the error about an unexpected type
    node. *)
Theorem getTypeName_outcomes (typeName : EntityName)
  (typeArguments : option (list Node)) (debugName : string) :
  let outcome := getTypeName (TypeReference typeName typeArguments) debugName in
  (exists d t,
      typeName = QualifiedName (Identifier d) t /\ parts typeName = 2 /\
      outcome = Ok {| domain := d; type := t |}) \/
  (exists l t,
      typeName = QualifiedName l t /\ 3 <= parts typeName /\
      outcome =
        Throw (Error ("unsupported triple nested type name in " ++ debugName))) \/
  (exists t,
      typeName = Identifier t /\ parts typeName = 1 /\
      outcome = Throw (Error ("unexpected type node in " ++ debugName))).
Proof.
  destruct typeName as [t|[d|l r] t]; simpl.
  - right; right. exists t. repeat split.
  - left. exists d, t. repeat split.
  - right; left. exists (QualifiedName l r), t. repeat split.
    simpl. destruct l; simpl; lia.
Qed.

(** ** The listener naming convention *)

(** C9. A method name that passes [/^on[A-Z]/] has at least three
    characters: the read of index 2 finds an upper-case letter, the slice
    from index 3 keeps the remaining characters, and the event name is
    computed without the [TypeError] of the out-of-range read. *)
Theorem listener_name_in_bounds (methodName : string) :
  test_on_AZ methodName = true ->
  3 <= String.length methodName /\
  String.length (slice 3 methodName) = String.length methodName - 3 /\
  (exists c,
      String.get 2 methodName = Some c /\ isUpperAZ c = true /\
      eventString methodName =
        Ok (String (toLowerCase c) (slice 3 methodName))) /\
  (forall property, eventString methodName <> Throw (TypeError property)).
Proof.
  intros H. destruct (test_on_AZ_inv _ H) as [c [rest [-> Hc]]].
  split; [simpl; lia|].
  split; [apply length_slice|].
  split; [exists c; repeat split; assumption|].
  intros property. discriminate.
Qed.

Lemma listener_name_in_bounds_witness :
  test_on_AZ "onRequestWillBeSent" = true /\
  eventString "onRequestWillBeSent" <> Throw (TypeError "toLowerCase").
Proof.
  split; [reflexivity|].
  apply (listener_name_in_bounds "onRequestWillBeSent"). reflexivity.
Defined.

(** ** getEventListenerParamType *)

(** C3. On a listener method without parameters the shape check does not
    throw an error of its own: the read of [parameters[0].type] is a read on
    [undefined], and the engine raises a [TypeError]. With two parameters or
    more the check throws its error with the count. *)
Theorem getEventListenerParamType_no_parameter :
  (forall name type methodName,
      getEventListenerParamType (MethodSignature name [] type) methodName =
      Throw (TypeError "type")) /\
  (forall name p1 p2 ps type methodName,
      getEventListenerParamType
        (MethodSignature name (p1 :: p2 :: ps) type) methodName =
      Throw (Error ("found " ++ numberToString (2 + List.length ps) ++
                    " parameters passed to " ++ methodName ++ "."))).
Proof.
  split; reflexivity.
Qed.

(** With one parameter whose type is not a function type the check throws
    its own error. *)
Lemma getEventListenerParamType_unexpected_argument
  (name : PropertyName) (parameter : Node) (type : option Node)
  (methodName : string) :
  (forall ps t, node_type parameter <> Some (FunctionType ps t)) ->
  getEventListenerParamType (MethodSignature name [parameter] type) methodName =
  Throw (Error ("found unexpected argument passed to " ++ methodName ++ ".")).
Proof.
  intros H. unfold getEventListenerParamType. simpl.
  destruct (node_type parameter) as [[]|]; try reflexivity.
  exfalso. eapply H. reflexivity.
Qed.

(** With one parameter of function type the answer is [getParamType]'s. *)
Lemma getEventListenerParamType_listener
  (name : PropertyName) (parameter : Node) (type : option Node)
  (ps : list Node) (t : option Node) (methodName : string) :
  node_type parameter = Some (FunctionType ps t) ->
  getEventListenerParamType (MethodSignature name [parameter] type) methodName =
  getParamType (FunctionType ps t) methodName.
Proof.
  intros H. unfold getEventListenerParamType. simpl. now rewrite H.
Qed.

(** ** getPromisedReturnType *)

Lemma getPromisedReturnType_Ok_iff (functionNode : Node) (debugName s : string) :
  getPromisedReturnType functionNode debugName = Ok s <->
  promisedPayload functionNode s.
Proof.
  unfold getPromisedReturnType. split.
  - destruct (node_type functionNode) as [[ | | | | | | |tn ta| | | ]|] eqn:E;
      try discriminate.
    destruct tn as [text|]; [|discriminate].
    destruct ta as [args|]; [|discriminate].
    destruct (eqb_spec text "Promise") as [->|ne]; simpl; [|discriminate].
    destruct args as [|payload [|x args]]; simpl; try discriminate.
    destruct payload as [ | | | | | | |tn ta| | | ]; try discriminate.
    + destruct tn as [t|[d|l r] t]; simpl; try discriminate.
      intros H. injection H as <-. now apply promisedReference with ta.
    + intros H. injection H as <-. now apply promisedVoid.
  - intros [H|d t ta H]; rewrite H; reflexivity.
Qed.

Lemma getPromisedReturnType_total (functionNode : Node) (debugName : string) :
  (exists s, getPromisedReturnType functionNode debugName = Ok s) \/
  isScriptError (getPromisedReturnType functionNode debugName).
Proof.
  unfold getPromisedReturnType, isScriptError.
  destruct (node_type functionNode) as [[ | | | | | | |tn ta| | | ]|];
    try (right; eexists; reflexivity).
  destruct tn as [text|]; [|right; eexists; reflexivity].
  destruct ta as [args|]; [|right; eexists; reflexivity].
  destruct (text =? "Promise"); simpl; [|right; eexists; reflexivity].
  destruct args as [|payload [|x args]]; simpl;
    try (right; eexists; reflexivity).
  destruct payload as [ | | | | | | |tn ta| | | ];
    try (right; eexists; reflexivity).
  - destruct tn as [t|[d|l r] t]; simpl;
      try (right; eexists; reflexivity).
    left; eexists; reflexivity.
  - left; eexists; reflexivity.
Qed.

Lemma promisedPayload_or_bad (functionNode : Node) :
  (exists s, promisedPayload functionNode s) \/
  (returnMissing functionNode \/ notWrapper functionNode \/
   wrongArity functionNode \/ badPayload functionNode).
Proof.
  unfold returnMissing, notWrapper, wrongArity, badPayload.
  destruct (node_type functionNode) as [rt|] eqn:E; [|right; now left].
  assert (Hrt : (exists ta, rt = TypeReference (Identifier "Promise") ta) \/
                (forall ta, rt <> TypeReference (Identifier "Promise") ta)).
  { destruct rt as [ | | | | | | |tn ta| | | ];
      try (right; intros ?; discriminate).
    destruct tn as [text|]; [|right; intros ?; discriminate].
    destruct (eqb_spec text "Promise") as [->|ne].
    - left. now exists ta.
    - right. intros ? H. injection H as H _. contradiction. }
  destruct Hrt as [[ta ->]|Hrt];
    [|right; right; left; exists rt; now split].
  destruct ta as [[|payload [|x args]]|];
    try (right; right; right; left; eexists; split;
         [reflexivity | intros ?; discriminate]).
  assert (Hp : payload = VoidKeyword \/
               (exists d t a,
                   payload = TypeReference (QualifiedName (Identifier d) t) a) \/
               (payload <> VoidKeyword /\
                forall d t a,
                  payload <> TypeReference (QualifiedName (Identifier d) t) a)).
  { destruct payload as [ | | | | | | |tn ta| | | ];
      try (right; right; split; [|intros ? ? ?]; discriminate).
    - destruct tn as [t|[d|l r] t];
        try (right; right; split; [|intros ? ? ?]; discriminate).
      right; left. now exists d, t, ta.
    - now left. }
  destruct Hp as [->|[[d [t [a ->]]]|[Hv Hr]]].
  - left. exists "void". now apply promisedVoid.
  - left. exists (d ++ "." ++ t). now apply promisedReference with a.
  - right; right; right; right. exists payload. now repeat split.
Qed.

Lemma promisedPayload_not_bad (functionNode : Node) (s : string) :
  promisedPayload functionNode s ->
  ~ (returnMissing functionNode \/ notWrapper functionNode \/
     wrongArity functionNode \/ badPayload functionNode).
Proof.
  unfold returnMissing, notWrapper, wrongArity, badPayload.
  intros Hs [H|[[rt [H Hn]]|[[ta [H Hn]]|[payload [H [Hv Hr]]]]]];
    destruct Hs as [E|d t a E]; rewrite E in H;
    try discriminate; injection H as H; subst.
  - now apply (Hn (Some [VoidKeyword])).
  - eapply Hn; reflexivity.
  - now apply (Hn VoidKeyword).
  - eapply Hn; reflexivity.
  - now apply Hv.
  - eapply Hr; reflexivity.
Qed.

(** C4. The extraction of a command's return type throws an error of the
    script exactly when the declared return type is missing, is not the
    [Promise] wrapper, has no type arguments or not exactly one, or wraps
    something that is neither [void] nor a reference [d.t]; in every other
    case it returns the payload, [void] or [d.t]. *)
Theorem getPromisedReturnType_fails_iff (functionNode : Node)
  (debugName : string) :
  (isScriptError (getPromisedReturnType functionNode debugName) <->
   returnMissing functionNode \/ notWrapper functionNode \/
   wrongArity functionNode \/ badPayload functionNode) /\
  ((exists s, getPromisedReturnType functionNode debugName = Ok s) \/
   isScriptError (getPromisedReturnType functionNode debugName)) /\
  (forall s,
      getPromisedReturnType functionNode debugName = Ok s <->
      promisedPayload functionNode s).
Proof.
  split; [|split].
  - split.
    + intros [message Hm].
      destruct (promisedPayload_or_bad functionNode) as [[s Hs]|Hbad];
        [|exact Hbad].
      apply (getPromisedReturnType_Ok_iff _ debugName) in Hs. congruence.
    + intros Hbad.
      destruct (getPromisedReturnType_total functionNode debugName)
        as [[s Hs]|Herr]; [|exact Herr].
      apply getPromisedReturnType_Ok_iff in Hs.
      exfalso. exact (promisedPayload_not_bad _ _ Hs Hbad).
  - apply getPromisedReturnType_total.
  - intros s. apply getPromisedReturnType_Ok_iff.
Qed.

(** ** getEventMap *)

Lemma append_inv_l (a b c : string) : a ++ b = a ++ c -> b = c.
Proof.
  induction a as [|x a IH]; simpl; intros H; [exact H|].
  injection H as H. exact (IH H).
Qed.

Lemma toLowerCase_upper_inv (c : ascii) :
  isUpperAZ c = true ->
  ascii_of_nat (nat_of_ascii (toLowerCase c) - 32) = c.
Proof.
  destruct c as [[] [] [] [] [] [] [] []]; vm_compute; congruence.
Qed.

Lemma toLowerCase_upper_inj (c c' : ascii) :
  isUpperAZ c = true -> isUpperAZ c' = true ->
  toLowerCase c = toLowerCase c' -> c = c'.
Proof.
  intros H H' E.
  rewrite <- (toLowerCase_upper_inv c H), <- (toLowerCase_upper_inv c' H').
  now rewrite E.
Qed.

(** An entry comes from a method called [on], a capital, a remainder; its
    key is the domain, a dot, the capital in lower case and the remainder. *)
Lemma eventEntry_Some_inv (domainName : string) (member : Node)
  (key value : string) :
  eventEntry domainName member = Ok (Some (key, value)) ->
  exists methodName ps t c rest,
    member = MethodSignature (IdentifierName methodName) ps t /\
    methodName = String "o" (String "n" (String c rest)) /\
    isUpperAZ c = true /\
    key = domainName ++ "." ++ String (toLowerCase c) rest.
Proof.
  unfold eventEntry.
  destruct member as [ | | | | |n ps t| | | | | ]; try discriminate.
  destruct n as [methodName| | | ]; try discriminate.
  destruct (test_on_AZ methodName) eqn:T; simpl; [|discriminate].
  destruct (test_on_AZ_inv _ T) as [c [rest [-> Hc]]].
  unfold eventString. simpl String.get. simpl slice. cbv iota. simpl bind at 1.
  destruct (getEventListenerParamType _ _) as [raw|e]; simpl; [|discriminate].
  intros H.
  assert (K : key = domainName ++ "." ++ String (toLowerCase c) rest).
  { destruct raw as [raw|].
    - destruct (getTypeName raw _); simpl in H; [|discriminate].
      now injection H as <- _.
    - now injection H as <- _. }
  exists (String "o" (String "n" (String c rest))), ps, t, c, rest.
  now repeat split.
Qed.

(** A listener method that does not throw gives an entry under its key. *)
Lemma eventEntry_listener (domainName methodName : string) (ps : list Node)
  (t : option Node) (entry : option (string * string)) :
  test_on_AZ methodName = true ->
  eventEntry domainName (MethodSignature (IdentifierName methodName) ps t)
    = Ok entry ->
  exists value,
    entry = Some (domainName ++ "." ++ eventNameOf methodName, value).
Proof.
  intros T. unfold eventEntry. rewrite T. simpl negb. cbv iota.
  destruct (test_on_AZ_inv _ T) as [c [rest [-> Hc]]].
  unfold eventString. simpl String.get. simpl slice. cbv iota. simpl bind at 1.
  destruct (getEventListenerParamType _ _) as [raw|e]; simpl; [|discriminate].
  destruct raw as [raw|].
  - destruct (getTypeName raw _); simpl; [|discriminate].
    intros H. injection H as <-. eexists. reflexivity.
  - intros H. injection H as <-. eexists. reflexivity.
Qed.

(** Two entries under one key come from methods of one name. *)
Lemma eventEntry_key_inj (domainName : string) (member member' : Node)
  (key value value' : string) :
  eventEntry domainName member = Ok (Some (key, value)) ->
  eventEntry domainName member' = Ok (Some (key, value')) ->
  exists methodName,
    isMethodNamed methodName member = true /\
    isMethodNamed methodName member' = true.
Proof.
  intros H H'.
  apply eventEntry_Some_inv in H as [n [ps [t [c [rest [-> [-> [Hc K]]]]]]]].
  apply eventEntry_Some_inv in H'
    as [n' [ps' [t' [c' [rest' [-> [-> [Hc' K']]]]]]]].
  rewrite K in K'. apply append_inv_l in K'. simpl in K'.
  injection K' as Ec <-.
  apply (toLowerCase_upper_inj _ _ Hc Hc') in Ec. subst c'.
  exists (String "o" (String "n" (String c rest))).
  unfold isMethodNamed. rewrite eqb_refl. now split.
Qed.

Lemma isMethodNamed_eq (n n' : string) (member : Node) :
  isMethodNamed n member = true -> isMethodNamed n' member = true -> n = n'.
Proof.
  destruct member as [ | | | | |[t| | | ] ps ty| | | | | ]; simpl;
    try discriminate.
  intros H H'. apply eqb_eq in H, H'. congruence.
Qed.

Lemma getEventMap_memberLoop (sourceRoot : Node) (domainName name : string)
  (members : list Node) :
  findFirstInterfaceOrModule sourceRoot (domainName ++ "Client") =
    Some (InterfaceDeclaration name members) ->
  getEventMap sourceRoot domainName =
  memberLoop (eventEntry domainName) members [].
Proof.
  intros H. unfold getEventMap. rewrite H. apply eventLoop_memberLoop.
Qed.

Lemma keys_count_once {V : Type}
  (entryOf : Node -> result (option (string * V)))
  (members : list Node) (m : Map V) (key : string) :
  memberLoop entryOf members [] = Ok m ->
  In key (emittedKeys entryOf members) ->
  count_occ string_dec (keys m) key = 1.
Proof.
  intros H Hin. rewrite (memberLoop_keys_empty _ _ _ H).
  apply NoDup_count_occ'.
  - apply NoDup_firstOccurrences.
  - now apply In_firstOccurrences.
Qed.

Lemma In_emittedKeys {V : Type}
  (entryOf : Node -> result (option (string * V)))
  (members : list Node) (member : Node) (key : string) (value : V) :
  In member members ->
  entryOf member = Ok (Some (key, value)) ->
  In key (emittedKeys entryOf members).
Proof.
  intros Hin H. unfold emittedKeys. apply in_flat_map.
  exists member. split; [exact Hin|].
  unfold keyOf. rewrite H. now left.
Qed.

(** C2. When the event map of a domain is extracted, every method of the
    domain's [Client] interface whose name is [on], an upper-case letter and
    a remainder has exactly one entry in the map, under the domain, a dot and
    the event name: the letter in lower case, then the remainder as it is.
    The first character of the event name is a lower-case letter. *)
Theorem listener_entry_once (sourceRoot : Node) (domainName name : string)
  (members : list Node) (eventMap : Map string)
  (methodName : string) (ps : list Node) (t : option Node) :
  findFirstInterfaceOrModule sourceRoot (domainName ++ "Client") =
    Some (InterfaceDeclaration name members) ->
  getEventMap sourceRoot domainName = Ok eventMap ->
  In (MethodSignature (IdentifierName methodName) ps t) members ->
  test_on_AZ methodName = true ->
  exists c rest,
    methodName = "on" ++ String c rest /\
    isUpperAZ c = true /\
    isLowerAZ (toLowerCase c) = true /\
    count_occ string_dec (keys eventMap)
      (domainName ++ "." ++ String (toLowerCase c) rest) = 1 /\
    exists eventType,
      In (domainName ++ "." ++ String (toLowerCase c) rest, eventType) eventMap.
Proof.
  intros Hfind Hmap Hin T.
  rewrite (getEventMap_memberLoop _ _ _ _ Hfind) in Hmap.
  destruct (test_on_AZ_inv _ T) as [c [rest [E Hc]]].
  exists c, rest. split; [exact E|]. split; [exact Hc|].
  split; [now apply toLowerCase_upper|].
  assert (Hall : exists m', memberLoop (eventEntry domainName) members [] = Ok m')
    by now exists eventMap.
  apply memberLoop_Ok_iff in Hall. rewrite Forall_forall in Hall.
  destruct (Hall _ Hin) as [entry Hentry].
  destruct (eventEntry_listener _ _ _ _ _ T Hentry) as [value ->].
  rewrite E in Hentry. simpl eventNameOf in Hentry. rewrite <- E in Hentry.
  assert (Hone : count_occ string_dec (keys eventMap)
                   (domainName ++ "." ++ String (toLowerCase c) rest) = 1).
  { apply (keys_count_once _ _ _ _ Hmap).
    exact (In_emittedKeys _ _ _ _ _ Hin Hentry). }
  split; [exact Hone|].
  assert (Hk : In (domainName ++ "." ++ String (toLowerCase c) rest)
                  (keys eventMap)).
  { apply (count_occ_In string_dec). lia. }
  unfold keys in Hk. apply in_map_iff in Hk as [[k v] [Hk Hkv]].
  simpl in Hk. subst k. now exists v.
Qed.

Lemma listener_entry_once_witness :
  exists c rest,
    "onRequestWillBeSent" = "on" ++ String c rest /\
    isUpperAZ c = true /\
    isLowerAZ (toLowerCase c) = true /\
    count_occ string_dec
      (keys [("Network.requestWillBeSent", "Crdp.Network.RequestWillBeSentEvent");
             ("Network.loadingFinished", "void")])
      ("Network" ++ "." ++ String (toLowerCase c) rest) = 1 /\
    exists eventType,
      In ("Network" ++ "." ++ String (toLowerCase c) rest, eventType)
         [("Network.requestWillBeSent", "Crdp.Network.RequestWillBeSentEvent");
          ("Network.loadingFinished", "void")].
Proof.
  apply (listener_entry_once Sample.sourceRoot "Network" "NetworkClient"
           [ Sample.listener "onRequestWillBeSent"
               [Sample.param (Sample.ref "Network" "RequestWillBeSentEvent")];
             Sample.listener "onLoadingFinished" [] ]
           _ "onRequestWillBeSent"
           [ParameterDeclaration "listener"
              (Some (FunctionType
                       [Sample.param
                          (Sample.ref "Network" "RequestWillBeSentEvent")]
                       (Some VoidKeyword)))]
           (Some VoidKeyword)).
  - reflexivity.
  - reflexivity.
  - left. reflexivity.
  - reflexivity.
Defined.

Lemma eventEntry_method_Ok (domainName methodName : string) (ps : list Node)
  (t : option Node) (entry : option (string * string)) :
  eventEntry domainName (MethodSignature (IdentifierName methodName) ps t)
    = Ok entry ->
  test_on_AZ methodName = true.
Proof.
  unfold eventEntry. destruct (test_on_AZ methodName); [reflexivity|].
  discriminate.
Qed.

(** Members that are not methods called [methodName] leave the key of
    such a method alone. *)
Lemma other_names_other_keys (domainName methodName : string)
  (ps : list Node) (t : option Node) (key value : string)
  (post : list Node) :
  eventEntry domainName (MethodSignature (IdentifierName methodName) ps t)
    = Ok (Some (key, value)) ->
  forallb (fun member => negb (isMethodNamed methodName member)) post = true ->
  forallb (fun member => match keyOf (eventEntry domainName) member with
                         | Some k => negb (k =? key)
                         | None => true
                         end) post = true.
Proof.
  intros Hm Hpost. rewrite forallb_forall in *. intros x Hx.
  specialize (Hpost x Hx). unfold keyOf.
  destruct (eventEntry domainName x) as [[[k v]|]|e] eqn:E; try reflexivity.
  destruct (eqb_spec k key) as [->|ne]; [|reflexivity].
  destruct (eventEntry_key_inj _ _ _ _ _ _ E Hm) as [n [Hn Hn']].
  assert (n = methodName).
  { apply (isMethodNamed_eq _ _ _ Hn'). unfold isMethodNamed.
    apply eqb_refl. }
  subst n. rewrite Hn in Hpost. discriminate.
Qed.

(** C8. When the [Client] interface of a domain declares two listener
    methods of one name, and every member passes its own checks, the
    extraction does not throw; the two methods share one key, the map has
    exactly one entry under it, the entry's type is the one of the later
    method, and the keys of the map stand in the order of their first
    insertion. *)
Theorem duplicate_listener_last_wins (sourceRoot : Node)
  (domainName name methodName : string) (pre mid post : list Node)
  (ps1 ps2 : list Node) (t1 t2 : option Node) :
  let first := MethodSignature (IdentifierName methodName) ps1 t1 in
  let second := MethodSignature (IdentifierName methodName) ps2 t2 in
  let members := (pre ++ first :: mid ++ second :: post)%list in
  findFirstInterfaceOrModule sourceRoot (domainName ++ "Client") =
    Some (InterfaceDeclaration name members) ->
  Forall (fun member => exists entry, eventEntry domainName member = Ok entry)
         members ->
  forallb (fun member => negb (isMethodNamed methodName member)) post = true ->
  exists eventMap key type1 type2,
    getEventMap sourceRoot domainName = Ok eventMap /\
    eventEntry domainName first = Ok (Some (key, type1)) /\
    eventEntry domainName second = Ok (Some (key, type2)) /\
    get eventMap key = Some type2 /\
    count_occ string_dec (keys eventMap) key = 1 /\
    keys eventMap =
      firstOccurrences (emittedKeys (eventEntry domainName) members).
Proof.
  intros first second members Hfind Hall Hpost.
  rewrite (getEventMap_memberLoop _ _ _ _ Hfind).
  destruct (proj2 (memberLoop_Ok_iff (eventEntry domainName) members []) Hall)
    as [eventMap Hmap].
  assert (Hin1 : In first members).
  { unfold members. apply in_or_app. right. now left. }
  assert (Hin2 : In second members).
  { unfold members. apply in_or_app. right. right.
    apply in_or_app. right. now left. }
  rewrite Forall_forall in Hall.
  destruct (Hall _ Hin1) as [e1 H1]. destruct (Hall _ Hin2) as [e2 H2].
  pose proof (eventEntry_method_Ok _ _ _ _ _ H1) as T.
  destruct (eventEntry_listener _ _ _ _ _ T H1) as [type1 ->].
  destruct (eventEntry_listener _ _ _ _ _ T H2) as [type2 ->].
  exists eventMap, (domainName ++ "." ++ eventNameOf methodName), type1, type2.
  split; [exact Hmap|]. split; [exact H1|]. split; [exact H2|].
  split; [|split].
  - unfold members in Hmap.
    change (pre ++ first :: mid ++ second :: post)%list
      with (pre ++ (first :: mid) ++ second :: post)%list in Hmap.
    rewrite app_assoc in Hmap.
    apply (memberLoop_get_last _ _ _ _ _ _ H2
             (other_names_other_keys _ _ _ _ _ _ _ H2 Hpost) _ _ Hmap).
  - apply (keys_count_once _ _ _ _ Hmap).
    exact (In_emittedKeys _ _ _ _ _ Hin2 H2).
  - exact (memberLoop_keys_empty _ _ _ Hmap).
Qed.

Lemma duplicate_listener_last_wins_witness :
  exists eventMap key type1 type2,
    getEventMap Sample.duplicateRoot "Network" = Ok eventMap /\
    eventEntry "Network"
      (Sample.listener "onDataReceived"
         [Sample.param (Sample.ref "Network" "DataReceivedEvent")])
      = Ok (Some (key, type1)) /\
    eventEntry "Network"
      (Sample.listener "onDataReceived"
         [Sample.param (Sample.ref "Network" "LoadingFailedEvent")])
      = Ok (Some (key, type2)) /\
    get eventMap key = Some type2 /\
    count_occ string_dec (keys eventMap) key = 1 /\
    keys eventMap =
      firstOccurrences
        (emittedKeys (eventEntry "Network") Sample.duplicateMembers).
Proof.
  apply (duplicate_listener_last_wins Sample.duplicateRoot "Network"
           "NetworkClient" "onDataReceived"
           [] [Sample.listener "onLoadingFinished" []] []).
  - reflexivity.
  - repeat constructor; eexists; reflexivity.
  - reflexivity.
Defined.

(** ** isWeakInterface *)

Lemma isWeakInterface_Ok_inv (sourceRoot : Node)
  (domainName interfaceName : string) (weak : bool) :
  isWeakInterface sourceRoot domainName interfaceName = Ok weak ->
  exists moduleName body name members,
    findFirstInterfaceOrModule sourceRoot domainName =
      Some (ModuleDeclaration moduleName body) /\
    findFirstInterfaceOrModule (ModuleDeclaration moduleName body) interfaceName
      = Some (InterfaceDeclaration name members) /\
    weak = forallb memberIsOptional members.
Proof.
  unfold isWeakInterface.
  destruct (findFirstInterfaceOrModule sourceRoot domainName)
    as [[ |moduleName body| | | | | | | | | ]|]; try discriminate.
  destruct (findFirstInterfaceOrModule (ModuleDeclaration moduleName body)
              interfaceName) as [[ | | |name members| | | | | | | ]|] eqn:E;
    try discriminate.
  intros H. injection H as <-.
  now exists moduleName, body, name, members.
Qed.

Lemma isWeakInterface_found (sourceRoot : Node)
  (domainName interfaceName moduleName name : string) (body : option Node)
  (members : list Node) :
  findFirstInterfaceOrModule sourceRoot domainName =
    Some (ModuleDeclaration moduleName body) ->
  findFirstInterfaceOrModule (ModuleDeclaration moduleName body) interfaceName
    = Some (InterfaceDeclaration name members) ->
  isWeakInterface sourceRoot domainName interfaceName =
  Ok (forallb memberIsOptional members).
Proof.
  intros H1 H2. unfold isWeakInterface. now rewrite H1, H2.
Qed.

Lemma all_optional_iff (members : list Node) :
  forallb memberIsOptional members = true <->
  forall name optional type,
    In (PropertySignature name optional type) members -> optional = true.
Proof.
  rewrite forallb_forall. split.
  - intros H name optional type Hin. exact (H _ Hin).
  - intros H member Hin.
    destruct member; try reflexivity. simpl. eapply H. exact Hin.
Qed.

Lemma no_property_all_optional (members : list Node) :
  forallb (fun member => negb (isPropertySignature member)) members = true ->
  forallb memberIsOptional members = true.
Proof.
  rewrite !forallb_forall. intros H member Hin. specialize (H _ Hin).
  destruct member; try reflexivity. discriminate.
Qed.

(** ** getCommandMap *)

Lemma getCommandMap_memberLoop (sourceRoot : Node) (domainName name : string)
  (members : list Node) :
  findFirstInterfaceOrModule sourceRoot (domainName ++ "Commands") =
    Some (InterfaceDeclaration name members) ->
  getCommandMap sourceRoot domainName =
  memberLoop (commandEntry sourceRoot domainName) members [].
Proof.
  intros H. unfold getCommandMap. rewrite H. apply commandLoop_memberLoop.
Qed.

(** An entry comes from a property, under the domain, a dot and its name. *)
Lemma commandEntry_Some_inv (sourceRoot : Node) (domainName : string)
  (member : Node) (key : string) (types : CommandTypes) :
  commandEntry sourceRoot domainName member = Ok (Some (key, types)) ->
  exists text,
    isPropertyNamed text member = true /\ key = domainName ++ "." ++ text.
Proof.
  unfold commandEntry.
  destruct member as [ | | | |n q ty| | | | | | ]; try discriminate.
  destruct n as [text| | | ]; try discriminate.
  destruct ty as [[ | | | | | | | |ps t| | ]|]; try discriminate.
  destruct (getParamType _ _) as [raw|e]; simpl; [|discriminate].
  intros H. exists text. unfold isPropertyNamed. rewrite eqb_refl.
  split; [reflexivity|].
  destruct (match raw with Some _ => _ | None => _ end); simpl in H;
    [|discriminate].
  destruct (getPromisedReturnType _ _); simpl in H; [|discriminate].
  now injection H as <- _.
Qed.

(** A property that does not throw gives an entry under its key. *)
Lemma commandEntry_property (sourceRoot : Node) (domainName text : string)
  (q : bool) (ty : option Node) (entry : option (string * CommandTypes)) :
  commandEntry sourceRoot domainName
    (PropertySignature (IdentifierName text) q ty) = Ok entry ->
  exists types, entry = Some (domainName ++ "." ++ text, types).
Proof.
  unfold commandEntry.
  destruct ty as [[ | | | | | | | |ps t| | ]|]; try discriminate.
  destruct (getParamType _ _) as [raw|e]; simpl; [|discriminate].
  destruct (match raw with Some _ => _ | None => _ end); simpl;
    [|discriminate].
  destruct (getPromisedReturnType _ _); simpl; [|discriminate].
  intros H. injection H as <-. eexists. reflexivity.
Qed.

Lemma isPropertyNamed_eq (n n' : string) (member : Node) :
  isPropertyNamed n member = true -> isPropertyNamed n' member = true ->
  n = n'.
Proof.
  destruct member as [ | | | |[t| | | ] q ty| | | | | | ]; simpl;
    try discriminate.
  intros H H'. apply eqb_eq in H, H'. congruence.
Qed.

Lemma other_properties_other_keys (sourceRoot : Node)
  (domainName text : string) (post : list Node) :
  forallb (fun member => negb (isPropertyNamed text member)) post = true ->
  forallb (fun member =>
             match keyOf (commandEntry sourceRoot domainName) member with
             | Some k => negb (k =? domainName ++ "." ++ text)
             | None => true
             end) post = true.
Proof.
  intros Hpost. rewrite forallb_forall in *. intros x Hx.
  specialize (Hpost x Hx). unfold keyOf.
  destruct (commandEntry sourceRoot domainName x) as [[[k v]|]|e] eqn:E;
    try reflexivity.
  destruct (eqb_spec k (domainName ++ "." ++ text)) as [->|ne]; [|reflexivity].
  destruct (commandEntry_Some_inv _ _ _ _ _ E) as [text' [Hn K]].
  apply append_inv_l in K. simpl in K. injection K as <-.
  rewrite Hn in Hpost. discriminate.
Qed.

(** The entry of a command in the finished map is the one its last
    declaration gave. *)
Lemma getCommandMap_get (sourceRoot : Node) (domainName name text : string)
  (q : bool) (ty : option Node) (pre post : list Node)
  (commandMap : Map CommandTypes) :
  let member := PropertySignature (IdentifierName text) q ty in
  findFirstInterfaceOrModule sourceRoot (domainName ++ "Commands") =
    Some (InterfaceDeclaration name (pre ++ member :: post)%list) ->
  forallb (fun member => negb (isPropertyNamed text member)) post = true ->
  getCommandMap sourceRoot domainName = Ok commandMap ->
  exists types,
    commandEntry sourceRoot domainName member =
      Ok (Some (domainName ++ "." ++ text, types)) /\
    get commandMap (domainName ++ "." ++ text) = Some types.
Proof.
  intros member Hfind Hpost Hmap.
  rewrite (getCommandMap_memberLoop _ _ _ _ Hfind) in Hmap.
  assert (Hall : exists m', memberLoop (commandEntry sourceRoot domainName)
                              (pre ++ member :: post)%list [] = Ok m')
    by now exists commandMap.
  apply memberLoop_Ok_iff in Hall. rewrite Forall_forall in Hall.
  destruct (Hall member) as [entry Hentry].
  { apply in_or_app. right. now left. }
  destruct (commandEntry_property _ _ _ _ _ _ Hentry) as [types ->].
  exists types. split; [exact Hentry|].
  exact (memberLoop_get_last _ _ _ _ _ _ Hentry
           (other_properties_other_keys _ _ _ _ Hpost) _ _ Hmap).
Qed.

(** The parameter type of a command with one parameter of type [d.t]. *)
Lemma commandEntry_paramsType (sourceRoot : Node) (domainName text : string)
  (q : bool) (parameter : Node) (ret : option Node) (d t : string)
  (typeArguments : option (list Node)) (key : string) (types : CommandTypes) :
  node_type parameter =
    Some (TypeReference (QualifiedName (Identifier d) t) typeArguments) ->
  commandEntry sourceRoot domainName
    (PropertySignature (IdentifierName text) q
       (Some (FunctionType [parameter] ret))) = Ok (Some (key, types)) ->
  exists weak,
    isWeakInterface sourceRoot d t = Ok weak /\
    paramsType types =
      if weak then "void | " ++ ("Crdp." ++ d ++ "." ++ t)
      else "Crdp." ++ d ++ "." ++ t.
Proof.
  intros Hp. unfold commandEntry, getParamType. simpl. rewrite Hp. simpl.
  destruct (isWeakInterface sourceRoot d t) as [weak|e]; simpl;
    [|discriminate].
  intros H. exists weak. split; [reflexivity|].
  destruct weak; simpl in H;
    destruct (getPromisedReturnType _ _); simpl in H; try discriminate;
    now injection H as _ <-.
Qed.

(** The types of a command that returns [Promise<void>]. *)
Lemma commandEntry_returns_void (sourceRoot : Node) (domainName text : string)
  (q : bool) (ps : list Node) (key : string) (types : CommandTypes) :
  commandEntry sourceRoot domainName
    (PropertySignature (IdentifierName text) q
       (Some (FunctionType ps
                (Some (TypeReference (Identifier "Promise")
                         (Some [VoidKeyword])))))) = Ok (Some (key, types)) ->
  returnType types = "void" /\
  match ps with
  | [] => paramsType types = "void"
  | _ => True
  end.
Proof.
  unfold commandEntry.
  destruct (getParamType _ _) as [raw|e] eqn:P; simpl; [|discriminate].
  destruct (match raw with Some _ => _ | None => _ end) as [pt|e] eqn:E;
    simpl; [|discriminate].
  intros H. injection H as _ <-. simpl. split; [reflexivity|].
  destruct ps; [|exact I].
  unfold getParamType in P. simpl in P. injection P as <-.
  now injection E as <-.
Qed.

(** C1. For a command with one parameter of type [d.t] the parameter type in
    the finished map is [void | Crdp.d.t] if and only if every property
    signature of the interface called [t] found in the module called [d]
    carries the question mark, whatever the other members are; if not, it is
    [Crdp.d.t]. *)
Theorem weak_params_iff_all_optional (sourceRoot : Node)
  (domainName name text : string) (q : bool) (parameter : Node)
  (ret : option Node) (pre post : list Node) (d t : string)
  (typeArguments : option (list Node)) (commandMap : Map CommandTypes) :
  let member :=
    PropertySignature (IdentifierName text) q
      (Some (FunctionType [parameter] ret)) in
  findFirstInterfaceOrModule sourceRoot (domainName ++ "Commands") =
    Some (InterfaceDeclaration name (pre ++ member :: post)%list) ->
  forallb (fun member => negb (isPropertyNamed text member)) post = true ->
  node_type parameter =
    Some (TypeReference (QualifiedName (Identifier d) t) typeArguments) ->
  getCommandMap sourceRoot domainName = Ok commandMap ->
  exists moduleName body interfaceName typeMembers types,
    findFirstInterfaceOrModule sourceRoot d =
      Some (ModuleDeclaration moduleName body) /\
    findFirstInterfaceOrModule (ModuleDeclaration moduleName body) t =
      Some (InterfaceDeclaration interfaceName typeMembers) /\
    moduleName = d /\ escapedText interfaceName = t /\
    get commandMap (domainName ++ "." ++ text) = Some types /\
    (paramsType types = "void | Crdp." ++ d ++ "." ++ t <->
     forall propertyName optional type,
       In (PropertySignature propertyName optional type) typeMembers ->
       optional = true) /\
    (paramsType types = "void | Crdp." ++ d ++ "." ++ t \/
     paramsType types = "Crdp." ++ d ++ "." ++ t).
Proof.
  intros member Hfind Hpost Hp Hmap.
  destruct (getCommandMap_get _ _ _ _ _ _ _ _ _ Hfind Hpost Hmap)
    as [types [Hentry Hget]].
  destruct (commandEntry_paramsType _ _ _ _ _ _ _ _ _ _ _ Hp Hentry)
    as [weak [Hweak Hparams]].
  destruct (isWeakInterface_Ok_inv _ _ _ _ Hweak)
    as [moduleName [body [interfaceName [typeMembers [Hd [Ht ->]]]]]].
  exists moduleName, body, interfaceName, typeMembers, types.
  split; [exact Hd|]. split; [exact Ht|].
  split; [exact (findFirstInterfaceOrModule_named _ _ _ Hd)|].
  split; [exact (findFirstInterfaceOrModule_named _ _ _ Ht)|].
  split; [exact Hget|].
  rewrite <- all_optional_iff, Hparams.
  destruct (forallb memberIsOptional typeMembers); split.
  - split; reflexivity.
  - now left.
  - split; discriminate.
  - now right.
Qed.

Lemma weak_params_iff_all_optional_witness :
  exists moduleName body interfaceName typeMembers types,
    findFirstInterfaceOrModule Sample.sourceRoot "Network" =
      Some (ModuleDeclaration moduleName body) /\
    findFirstInterfaceOrModule (ModuleDeclaration moduleName body)
      "GetCookiesRequest" =
      Some (InterfaceDeclaration interfaceName typeMembers) /\
    moduleName = "Network" /\ escapedText interfaceName = "GetCookiesRequest" /\
    get [("Network.enable", {| paramsType := "void"; returnType := "void" |});
         ("Network.getCookies",
          {| paramsType := "void | Crdp.Network.GetCookiesRequest";
             returnType := "Crdp.Network.GetCookiesResponse" |});
         ("Network.setUserAgentOverride",
          {| paramsType := "Crdp.Network.SetUserAgentOverrideRequest";
             returnType := "void" |});
         ("Network.mark",
          {| paramsType := "void | Crdp.Network.Marker";
             returnType := "void" |})]
        ("Network" ++ "." ++ "getCookies") = Some types /\
    (paramsType types = "void | Crdp." ++ "Network" ++ "." ++ "GetCookiesRequest"
     <->
     forall propertyName optional type,
       In (PropertySignature propertyName optional type) typeMembers ->
       optional = true) /\
    (paramsType types = "void | Crdp." ++ "Network" ++ "." ++ "GetCookiesRequest"
     \/ paramsType types = "Crdp." ++ "Network" ++ "." ++ "GetCookiesRequest").
Proof.
  apply (weak_params_iff_all_optional Sample.sourceRoot "Network"
           "NetworkCommands" "getCookies" false
           (Sample.param (Sample.ref "Network" "GetCookiesRequest"))
           (Some (Sample.promise (Sample.ref "Network" "GetCookiesResponse")))
           [Sample.enable]
           [ Sample.command "setUserAgentOverride"
               [Sample.param
                  (Sample.ref "Network" "SetUserAgentOverrideRequest")]
               VoidKeyword;
             Sample.command "mark"
               [Sample.param (Sample.ref "Network" "Marker")] VoidKeyword ]
           "Network" "GetCookiesRequest" None).
  - reflexivity.
  - reflexivity.
  - reflexivity.
  - reflexivity.
Defined.

(** C10. An interface [t] of the module [d] without any property signature,
    be it empty or made of other members only, is weak; a command whose one
    parameter has the type [d.t] gets the parameter type
    [void | Crdp.d.t]. *)
Theorem no_property_member_is_weak (sourceRoot : Node)
  (domainName name text : string) (q : bool) (parameter : Node)
  (ret : option Node) (pre post : list Node) (d t : string)
  (typeArguments : option (list Node)) (commandMap : Map CommandTypes)
  (moduleName interfaceName : string) (body : option Node)
  (typeMembers : list Node) :
  let member :=
    PropertySignature (IdentifierName text) q
      (Some (FunctionType [parameter] ret)) in
  findFirstInterfaceOrModule sourceRoot d =
    Some (ModuleDeclaration moduleName body) ->
  findFirstInterfaceOrModule (ModuleDeclaration moduleName body) t =
    Some (InterfaceDeclaration interfaceName typeMembers) ->
  forallb (fun member => negb (isPropertySignature member)) typeMembers = true ->
  findFirstInterfaceOrModule sourceRoot (domainName ++ "Commands") =
    Some (InterfaceDeclaration name (pre ++ member :: post)%list) ->
  forallb (fun member => negb (isPropertyNamed text member)) post = true ->
  node_type parameter =
    Some (TypeReference (QualifiedName (Identifier d) t) typeArguments) ->
  getCommandMap sourceRoot domainName = Ok commandMap ->
  isWeakInterface sourceRoot d t = Ok true /\
  exists types,
    get commandMap (domainName ++ "." ++ text) = Some types /\
    paramsType types = "void | Crdp." ++ d ++ "." ++ t.
Proof.
  intros member Hd Ht Hnone Hfind Hpost Hp Hmap.
  assert (Hweak : isWeakInterface sourceRoot d t = Ok true).
  { rewrite (isWeakInterface_found _ _ _ _ _ _ _ Hd Ht).
    now rewrite (no_property_all_optional _ Hnone). }
  split; [exact Hweak|].
  destruct (getCommandMap_get _ _ _ _ _ _ _ _ _ Hfind Hpost Hmap)
    as [types [Hentry Hget]].
  destruct (commandEntry_paramsType _ _ _ _ _ _ _ _ _ _ _ Hp Hentry)
    as [weak [Hweak' Hparams]].
  exists types. split; [exact Hget|].
  rewrite Hweak in Hweak'. injection Hweak' as <-. exact Hparams.
Qed.

Lemma no_property_member_is_weak_witness :
  isWeakInterface Sample.sourceRoot "Network" "Marker" = Ok true /\
  exists types,
    get [("Network.enable", {| paramsType := "void"; returnType := "void" |});
         ("Network.getCookies",
          {| paramsType := "void | Crdp.Network.GetCookiesRequest";
             returnType := "Crdp.Network.GetCookiesResponse" |});
         ("Network.setUserAgentOverride",
          {| paramsType := "Crdp.Network.SetUserAgentOverrideRequest";
             returnType := "void" |});
         ("Network.mark",
          {| paramsType := "void | Crdp.Network.Marker";
             returnType := "void" |})]
        ("Network" ++ "." ++ "mark") = Some types /\
    paramsType types = "void | Crdp." ++ "Network" ++ "." ++ "Marker".
Proof.
  apply (no_property_member_is_weak Sample.sourceRoot "Network"
           "NetworkCommands" "mark" false
           (Sample.param (Sample.ref "Network" "Marker"))
           (Some (Sample.promise VoidKeyword))
           [ Sample.enable;
             Sample.command "getCookies"
               [Sample.param (Sample.ref "Network" "GetCookiesRequest")]
               (Sample.ref "Network" "GetCookiesResponse");
             Sample.command "setUserAgentOverride"
               [Sample.param
                  (Sample.ref "Network" "SetUserAgentOverrideRequest")]
               VoidKeyword ]
           [] "Network" "Marker" None _ "Network" "Marker"
           (Some (ModuleBlock
              [ InterfaceDeclaration "RequestWillBeSentEvent"
                  [Sample.prop "requestId" false];
                InterfaceDeclaration "GetCookiesRequest"
                  [Sample.prop "urls" true];
                InterfaceDeclaration "SetUserAgentOverrideRequest"
                  [Sample.prop "userAgent" false];
                InterfaceDeclaration "GetCookiesResponse"
                  [Sample.prop "cookies" false];
                InterfaceDeclaration "Marker" [OtherNode []] ]))
           [OtherNode []]).
  - reflexivity.
  - reflexivity.
  - reflexivity.
  - reflexivity.
  - reflexivity.
  - reflexivity.
  - reflexivity.
Defined.

(** C5. A command that returns [Promise<void>] has the return type [void]
    in the finished map, not a [Crdp.] reference; without parameters its
    parameter type is [void] too, as for [enable: () => Promise<void>] of
    [NetworkCommands], recorded under [Network.enable]. *)
Theorem promise_void_returns_void (sourceRoot : Node)
  (domainName name text : string) (q : bool) (ps : list Node)
  (pre post : list Node) (commandMap : Map CommandTypes) :
  let member :=
    PropertySignature (IdentifierName text) q
      (Some (FunctionType ps
               (Some (TypeReference (Identifier "Promise")
                        (Some [VoidKeyword]))))) in
  findFirstInterfaceOrModule sourceRoot (domainName ++ "Commands") =
    Some (InterfaceDeclaration name (pre ++ member :: post)%list) ->
  forallb (fun member => negb (isPropertyNamed text member)) post = true ->
  getCommandMap sourceRoot domainName = Ok commandMap ->
  exists types,
    get commandMap (domainName ++ "." ++ text) = Some types /\
    returnType types = "void" /\
    match ps with
    | [] => types = {| paramsType := "void"; returnType := "void" |}
    | _ => True
    end.
Proof.
  intros member Hfind Hpost Hmap.
  destruct (getCommandMap_get _ _ _ _ _ _ _ _ _ Hfind Hpost Hmap)
    as [types [Hentry Hget]].
  destruct (commandEntry_returns_void _ _ _ _ _ _ _ Hentry) as [Hr Hps].
  exists types. split; [exact Hget|]. split; [exact Hr|].
  destruct ps; [|exact I].
  destruct types as [pt rt]. simpl in *. now subst.
Qed.

Lemma promise_void_returns_void_witness :
  exists types,
    get [("Network.enable", {| paramsType := "void"; returnType := "void" |});
         ("Network.getCookies",
          {| paramsType := "void | Crdp.Network.GetCookiesRequest";
             returnType := "Crdp.Network.GetCookiesResponse" |});
         ("Network.setUserAgentOverride",
          {| paramsType := "Crdp.Network.SetUserAgentOverrideRequest";
             returnType := "void" |});
         ("Network.mark",
          {| paramsType := "void | Crdp.Network.Marker";
             returnType := "void" |})]
        ("Network" ++ "." ++ "enable") = Some types /\
    returnType types = "void" /\
    types = {| paramsType := "void"; returnType := "void" |}.
Proof.
  apply (promise_void_returns_void Sample.sourceRoot "Network"
           "NetworkCommands" "enable" false [] []
           [ Sample.command "getCookies"
               [Sample.param (Sample.ref "Network" "GetCookiesRequest")]
               (Sample.ref "Network" "GetCookiesResponse");
             Sample.command "setUserAgentOverride"
               [Sample.param
                  (Sample.ref "Network" "SetUserAgentOverrideRequest")]
               VoidKeyword;
             Sample.command "mark"
               [Sample.param (Sample.ref "Network" "Marker")] VoidKeyword ]).
  - reflexivity.
  - reflexivity.
  - reflexivity.
Defined.

(** ** Rendering *)

Lemma concatStrings_app (l1 l2 : list string) :
  concatStrings (l1 ++ l2)%list = concatStrings l1 ++ concatStrings l2.
Proof.
  unfold concatStrings.
  induction l1 as [|x l1 IH]; simpl; [reflexivity|].
  now rewrite IH, append_assoc.
Qed.

Lemma appendEvent_render (indentLevel : nat) (outputStr : string)
  (entry : string * string) :
  appendEvent indentLevel outputStr entry =
  outputStr ++ renderEvent indentLevel entry.
Proof.
  destruct entry as [k v]. reflexivity.
Qed.

Lemma appendCommand_render (indentLevel : nat) (outputStr : string)
  (entry : string * CommandTypes) :
  appendCommand indentLevel outputStr entry =
  outputStr ++ renderCommand indentLevel entry.
Proof.
  destruct entry as [k v]. unfold appendCommand, renderCommand.
  cbn [fst snd]. now rewrite !append_assoc.
Qed.

Lemma fold_appendEvent (indentLevel : nat) (eventMap : Map string) :
  forall outputStr,
    fold_left (appendEvent indentLevel) eventMap outputStr =
    outputStr ++ concatStrings (map (renderEvent indentLevel) eventMap).
Proof.
  induction eventMap as [|entry rest IH]; intros outputStr;
    cbn [fold_left map].
  - unfold concatStrings. cbn [fold_right]. now rewrite append_empty_r.
  - rewrite IH, appendEvent_render. unfold concatStrings. cbn [fold_right].
    now rewrite append_assoc.
Qed.

Lemma fold_appendCommand (indentLevel : nat) (commandMap : Map CommandTypes) :
  forall outputStr,
    fold_left (appendCommand indentLevel) commandMap outputStr =
    outputStr ++ concatStrings (map (renderCommand indentLevel) commandMap).
Proof.
  induction commandMap as [|entry rest IH]; intros outputStr;
    cbn [fold_left map].
  - unfold concatStrings. cbn [fold_right]. now rewrite append_empty_r.
  - rewrite IH, appendCommand_render. unfold concatStrings. cbn [fold_right].
    now rewrite append_assoc.
Qed.

Lemma eventDomainLoop_Ok (sourceRoot : Node) (indentLevel : nat)
  (domainNames : list string) :
  forall outputStr text,
    eventDomainLoop sourceRoot domainNames indentLevel outputStr = Ok text ->
    exists maps,
      Forall2 (fun domainName eventMap =>
                 getEventMap sourceRoot domainName = Ok eventMap)
              domainNames maps /\
      text = outputStr ++
             concatStrings (map (renderEvent indentLevel) (List.concat maps)).
Proof.
  induction domainNames as [|domainName rest IH]; simpl; intros outputStr text H.
  - injection H as <-. exists []. split; [constructor|].
    simpl. now rewrite append_empty_r.
  - destruct (getEventMap sourceRoot domainName) as [eventMap|e] eqn:E;
      simpl in H; [|discriminate].
    destruct (IH _ _ H) as [maps [Hmaps ->]].
    exists (eventMap :: maps). split; [now constructor|].
    simpl. now rewrite fold_appendEvent, map_app, concatStrings_app, append_assoc.
Qed.

Lemma commandDomainLoop_Ok (sourceRoot : Node) (indentLevel : nat)
  (domainNames : list string) :
  forall outputStr text,
    commandDomainLoop sourceRoot domainNames indentLevel outputStr = Ok text ->
    exists maps,
      Forall2 (fun domainName commandMap =>
                 getCommandMap sourceRoot domainName = Ok commandMap)
              domainNames maps /\
      text = outputStr ++
             concatStrings (map (renderCommand indentLevel) (List.concat maps)).
Proof.
  induction domainNames as [|domainName rest IH]; simpl; intros outputStr text H.
  - injection H as <-. exists []. split; [constructor|].
    simpl. now rewrite append_empty_r.
  - destruct (getCommandMap sourceRoot domainName) as [commandMap|e] eqn:E;
      simpl in H; [|discriminate].
    destruct (IH _ _ H) as [maps [Hmaps ->]].
    exists (commandMap :: maps). split; [now constructor|].
    simpl.
    now rewrite fold_appendCommand, map_app, concatStrings_app, append_assoc.
Qed.

Lemma newline_length (indentLevel : nat) :
  String.length (newline indentLevel) = 1 + 2 * indentLevel.
Proof.
  unfold newline. rewrite length_append, length_repeat. simpl. lia.
Qed.


(** * Further properties of the script *)

(** ** The search is a first match in document order *)

Lemma preorder_each (l : list Node) :
  (fix each (l : list Node) : list Node :=
     match l with
     | [] => []
     | c :: rest => (preorder c ++ each rest)%list
     end) l = flat_map preorder l.
Proof.
  induction l as [|c l IH]; simpl; [reflexivity | now rewrite IH].
Qed.

Lemma preorder_unfold (node : Node) :
  preorder node = node :: flat_map preorder (children node).
Proof.
  destruct node as [ss|n b|ss|n ms|n q t|n ps t|n t|tn ta|ps t| |cs]; simpl;
    rewrite ?preorder_each, ?flat_map_app; try reflexivity.
  - destruct b; simpl; now rewrite ?app_nil_r.
  - destruct t; simpl; now rewrite ?app_nil_r.
  - destruct t; simpl; now rewrite ?app_nil_r.
  - destruct t; simpl; now rewrite ?app_nil_r.
  - destruct ta; [now rewrite preorder_each | reflexivity].
  - destruct t; simpl; now rewrite ?app_nil_r.
Qed.

Lemma Node_ind_children (P : Node -> Prop) :
  (forall node, Forall P (children node) -> P node) ->
  forall node, P node.
Proof.
  intros H.
  assert (Ho : forall o, ForallOption P o -> Forall P (ofOption o)).
  { intros [c|] Hc; simpl; [now constructor | constructor]. }
  induction node using Node_children_ind; apply H; simpl; auto.
  - apply Forall_app. split; auto.
  - destruct ta; [assumption | constructor].
  - apply Forall_app. split; auto.
Qed.

Lemma find_app {A : Type} (p : A -> bool) (l1 l2 : list A) :
  find p (l1 ++ l2)%list =
  match find p l1 with
  | Some r => Some r
  | None => find p l2
  end.
Proof.
  induction l1 as [|x l1 IH]; simpl; [reflexivity|].
  destruct (p x); [reflexivity | exact IH].
Qed.

Lemma firstSome_find_flat_map {A B : Type} (p : B -> bool) (f : A -> list B)
  (cb : A -> option B) (l : list A) :
  Forall (fun x => cb x = find p (f x)) l ->
  firstSome cb l = find p (flat_map f l).
Proof.
  induction 1 as [|x l Hx _ IH]; simpl; [reflexivity|].
  rewrite find_app, Hx. destruct (find p (f x)); [reflexivity | exact IH].
Qed.

Lemma walker_isTarget (targetName : string) (node : Node) :
  walker targetName node =
  if isTarget targetName node then Some node
  else forEachChild node (walker targetName).
Proof.
  rewrite walker_unfold. destruct node; reflexivity.
Qed.

Lemma walker_find (targetName : string) (node : Node) :
  walker targetName node = find (isTarget targetName) (preorder node).
Proof.
  induction node as [node IH] using Node_ind_children.
  rewrite walker_isTarget, preorder_unfold. simpl.
  destruct (isTarget targetName node); [reflexivity|].
  unfold forEachChild. now apply firstSome_find_flat_map.
Qed.

(** X1. The search returns the first node, in document order, that is an
    interface or a module of the wanted name. *)
Theorem findFirstInterfaceOrModule_first_match (rootNode : Node)
  (targetName : string) :
  findFirstInterfaceOrModule rootNode targetName =
  find (isTarget targetName) (preorder rootNode).
Proof.
  apply walker_find.
Qed.

(** X2. The search finds nothing exactly when no node of the tree is an
    interface or a module of the wanted name; what it finds is a node of the
    tree, and it is such an interface or module. *)
Theorem findFirstInterfaceOrModule_None_iff (rootNode : Node)
  (targetName : string) :
  (findFirstInterfaceOrModule rootNode targetName = None <->
   forall node, In node (preorder rootNode) -> isTarget targetName node = false)
  /\
  (forall found,
      findFirstInterfaceOrModule rootNode targetName = Some found ->
      In found (preorder rootNode) /\ isTarget targetName found = true).
Proof.
  unfold findFirstInterfaceOrModule. rewrite walker_find. split.
  - split.
    + intros H node. now apply find_none.
    + intros H. destruct (find _ _) as [found|] eqn:E; [|reflexivity].
      apply find_some in E as [Hin Ht]. rewrite (H _ Hin) in Ht. discriminate.
  - intros found H. now apply find_some in H.
Qed.

(** ** getCrdpDomainNames *)

(** X3. The enumeration of the domains throws its error exactly when no
    interface and no module called [CrdpClient] is anywhere in the tree; in
    every other case it returns a list of names. *)
Theorem getCrdpDomainNames_fails_iff (node : Node) :
  (getCrdpDomainNames node =
     Throw (Error "no `interface CrdpClient` found in typing file") <->
   forall n, In n (preorder node) -> isTarget "CrdpClient" n = false) /\
  ((exists names, getCrdpDomainNames node = Ok names) \/
   getCrdpDomainNames node =
     Throw (Error "no `interface CrdpClient` found in typing file")).
Proof.
  unfold getCrdpDomainNames, findFirstInterfaceOrModule.
  rewrite walker_find.
  destruct (find (isTarget "CrdpClient") (preorder node)) as [found|] eqn:E.
  - split.
    + split; [discriminate|].
      intros H. apply find_some in E as [Hin Ht].
      rewrite (H _ Hin) in Ht. discriminate.
    + left. eexists. reflexivity.
  - split.
    + split; [|reflexivity]. intros _ n. now apply find_none.
    + now right.
Qed.

(** X4. When the first [CrdpClient] is an interface, the domains are the
    names of its property signatures that are identifiers: a name is listed
    if and only if such a member carries it, and no member gives more than
    one name. *)
Theorem getCrdpDomainNames_of_interface (node : Node) (name : string)
  (members : list Node) :
  findFirstInterfaceOrModule node "CrdpClient" =
    Some (InterfaceDeclaration name members) ->
  exists names,
    getCrdpDomainNames node = Ok names /\
    (forall d,
        In d names <->
        exists q t, In (PropertySignature (IdentifierName d) q t) members) /\
    List.length names <= List.length members /\
    (Forall (fun member => isPropertySignature member = false) members ->
     names = []).
Proof.
  intros H. unfold getCrdpDomainNames. rewrite H. simpl children.
  eexists. split; [reflexivity|]. split; [|split].
  - intros d. rewrite in_flat_map. split.
    + intros [member [Hin Hd]].
      destruct member as [ | | | |[text| | | ] q t| | | | | | ];
        try contradiction.
      destruct Hd as [->|[]]. now exists q, t.
    + intros [q [t Hin]]. eexists. split; [exact Hin|]. now left.
  - clear H. induction members as [|member rest IH]; simpl; [lia|].
    rewrite length_app.
    destruct member as [ | | | |[text| | | ] q t| | | | | | ]; simpl; lia.
  - clear H. induction 1 as [|member rest Hm _ IH]; simpl; [reflexivity|].
    rewrite IH.
    destruct member as [ | | | |n q t| | | | | | ]; try reflexivity.
    discriminate.
Qed.

Lemma getCrdpDomainNames_of_interface_witness :
  exists names,
    getCrdpDomainNames Sample.sourceRoot = Ok names /\
    (forall d,
        In d names <->
        exists q t,
          In (PropertySignature (IdentifierName d) q t)
             [PropertySignature (IdentifierName "Network") false
                (Some (TypeReference (Identifier "NetworkClient") None))]) /\
    List.length names <= 1 /\
    (Forall (fun member => isPropertySignature member = false)
       [PropertySignature (IdentifierName "Network") false
          (Some (TypeReference (Identifier "NetworkClient") None))] ->
     names = []).
Proof.
  apply (getCrdpDomainNames_of_interface Sample.sourceRoot "CrdpClient").
  reflexivity.
Defined.

Lemma crdpStr_no_domain (headerBlock : string) (sourceRoot : Node) :
  getCrdpDomainNames sourceRoot = Ok [] ->
  crdpStr headerBlock sourceRoot = Ok (emptyOutput headerBlock).
Proof.
  intros H. unfold crdpStr. rewrite H. unfold emptyOutput. simpl.
  now rewrite !append_assoc.
Qed.

(** X5. When the first [CrdpClient] of the tree is a module (a namespace)
    and not an interface, the script finds no domain at all: it does not
    throw, and it writes the two blocks empty, whatever else the tree
    declares. *)
Theorem crdpStr_of_namespace_CrdpClient (headerBlock : string)
  (sourceRoot : Node) (name : string) (body : option Node) :
  findFirstInterfaceOrModule sourceRoot "CrdpClient" =
    Some (ModuleDeclaration name body) ->
  ForallOption (fun b => isPropertySignature b = false) body ->
  getCrdpDomainNames sourceRoot = Ok [] /\
  crdpStr headerBlock sourceRoot = Ok (emptyOutput headerBlock).
Proof.
  intros H Hb.
  assert (Hn : getCrdpDomainNames sourceRoot = Ok []).
  { unfold getCrdpDomainNames. rewrite H.
    destruct body as [[ | | | |n q t| | | | | | ]|]; try reflexivity.
    discriminate. }
  split; [exact Hn | now apply crdpStr_no_domain].
Qed.

Lemma crdpStr_of_namespace_CrdpClient_witness :
  getCrdpDomainNames
    (SourceFile
       [ ModuleDeclaration "CrdpClient"
           (Some (ModuleBlock [Sample.NetworkClient]));
         Sample.CrdpClient ]) = Ok [] /\
  crdpStr "// header"
    (SourceFile
       [ ModuleDeclaration "CrdpClient"
           (Some (ModuleBlock [Sample.NetworkClient]));
         Sample.CrdpClient ]) = Ok (emptyOutput "// header").
Proof.
  apply (crdpStr_of_namespace_CrdpClient "// header" _ "CrdpClient"
           (Some (ModuleBlock [Sample.NetworkClient]))).
  - reflexivity.
  - reflexivity.
Defined.

(** ** isWeakInterface *)

(** X6. The search for the interface starts at the domain's module itself:
    when the interface asked for has the name of the domain, the search
    returns the module, and the check throws its error about the interface,
    whatever the module declares. *)
Theorem isWeakInterface_domain_name_throws (sourceRoot : Node)
  (domainName moduleName : string) (body : option Node) :
  findFirstInterfaceOrModule sourceRoot domainName =
    Some (ModuleDeclaration moduleName body) ->
  isWeakInterface sourceRoot domainName domainName =
  Throw (Error ("interface " ++ domainName ++ " not found within " ++
                domainName ++ " domain")).
Proof.
  intros H. pose proof (findFirstInterfaceOrModule_named _ _ _ H) as Hn.
  simpl in Hn. subst moduleName.
  unfold isWeakInterface. rewrite H.
  unfold findFirstInterfaceOrModule at 1. rewrite walker_isTarget.
  unfold isTarget. now rewrite eqb_refl.
Qed.

Lemma isWeakInterface_domain_name_throws_witness :
  isWeakInterface Sample.sourceRoot "Network" "Network" =
  Throw (Error ("interface " ++ "Network" ++ " not found within " ++
                "Network" ++ " domain")).
Proof.
  apply (isWeakInterface_domain_name_throws Sample.sourceRoot "Network"
           "Network"
           (Some (ModuleBlock
              [ InterfaceDeclaration "RequestWillBeSentEvent"
                  [Sample.prop "requestId" false];
                InterfaceDeclaration "GetCookiesRequest"
                  [Sample.prop "urls" true];
                InterfaceDeclaration "SetUserAgentOverrideRequest"
                  [Sample.prop "userAgent" false];
                InterfaceDeclaration "GetCookiesResponse"
                  [Sample.prop "cookies" false];
                InterfaceDeclaration "Marker" [OtherNode []] ]))).
  reflexivity.
Defined.

(** X7. The weakness check throws [domain ... not found] exactly when the
    first interface or module of the domain's name, in document order, is not
    a module: none exists, or an interface of that name comes first. It
    throws [interface ... not found] exactly when that module is found and
    the first interface or module of the type's name inside it is not an
    interface. It never raises a [TypeError]. *)
Theorem isWeakInterface_errors (sourceRoot : Node)
  (domainName interfaceName : string) :
  (isWeakInterface sourceRoot domainName interfaceName =
     Throw (Error ("domain " ++ domainName ++ " not found")) <->
   match find (isTarget domainName) (preorder sourceRoot) with
   | Some found => isModuleDeclaration found = false
   | None => True
   end) /\
  (isWeakInterface sourceRoot domainName interfaceName =
     Throw (Error ("interface " ++ interfaceName ++ " not found within " ++
                   domainName ++ " domain")) <->
   match find (isTarget domainName) (preorder sourceRoot) with
   | Some found =>
       isModuleDeclaration found = true /\
       match find (isTarget interfaceName) (preorder found) with
       | Some target => isInterfaceDeclaration target = false
       | None => True
       end
   | None => False
   end) /\
  (forall property,
      isWeakInterface sourceRoot domainName interfaceName <>
      Throw (TypeError property)).
Proof.
  unfold isWeakInterface, findFirstInterfaceOrModule.
  rewrite walker_find.
  destruct (find (isTarget domainName) (preorder sourceRoot))
    as [[ |n b| | | | | | | | | ]|];
    try (split; [split; [reflexivity | intros _; reflexivity]
                |split; [split; [discriminate | intros [H _]; discriminate]
                        |intros property; discriminate]]).
  - rewrite walker_find.
    destruct (find (isTarget interfaceName) (preorder (ModuleDeclaration n b)))
      as [[ | | |n' ms| | | | | | | ]|];
      try (split; [split; discriminate
                  |split; [split; [intros _; now split | reflexivity]
                          |intros property; discriminate]]).
    split; [split; discriminate|].
    split; [split; [discriminate | intros [_ H]; discriminate]|].
    intros property. discriminate.
  - split; [split; [reflexivity | intros _; reflexivity]|].
    split; [split; [discriminate | intros []]|].
    intros property. discriminate.
Qed.

(** ** getParamType and getEventListenerParamType *)

(** X8. What [getParamType] returns, when it returns a node, is the type of
    the one parameter, and it is a type reference; so [getTypeName] on it
    either returns a name or throws an error of the script, and never runs
    into a [TypeError]. *)
Theorem getParamType_returns_type_reference (functionNode : Node)
  (debugName debugName' : string) (paramType : Node) :
  getParamType functionNode debugName = Ok (Some paramType) ->
  (exists parameter typeName typeArguments,
      node_parameters functionNode = Some [parameter] /\
      node_type parameter = Some paramType /\
      paramType = TypeReference typeName typeArguments) /\
  ((exists n, getTypeName paramType debugName' = Ok n) \/
   isScriptError (getTypeName paramType debugName')).
Proof.
  unfold getParamType.
  destruct (node_parameters functionNode) as [[|p [|p' ps]]|]; simpl;
    try discriminate.
  destruct (node_type p) as [[ | | | | | | |tn ta| | | ]|] eqn:E;
    try discriminate.
  intros H. injection H as <-. split.
  - now exists p, tn, ta.
  - destruct tn as [t|[d|l r] t]; simpl.
    + right. eexists. reflexivity.
    + left. eexists. reflexivity.
    + right. eexists. reflexivity.
Qed.

Lemma getParamType_returns_type_reference_witness :
  (exists parameter typeName typeArguments,
      node_parameters
        (FunctionType [Sample.param (Sample.ref "Network" "GetCookiesRequest")]
           None) = Some [parameter] /\
      node_type parameter = Some (Sample.ref "Network" "GetCookiesRequest") /\
      Sample.ref "Network" "GetCookiesRequest" =
        TypeReference typeName typeArguments) /\
  ((exists n,
       getTypeName (Sample.ref "Network" "GetCookiesRequest") "other" = Ok n) \/
   isScriptError
     (getTypeName (Sample.ref "Network" "GetCookiesRequest") "other")).
Proof.
  apply (getParamType_returns_type_reference
           (FunctionType [Sample.param (Sample.ref "Network" "GetCookiesRequest")]
              None)
           "Network.getCookies" "other").
  reflexivity.
Defined.

(** X9. The check of a listener method returns normally in two cases only:
    the method has exactly one parameter, whose type is a function type, and
    that function type has no parameter (no payload) or exactly one, typed by
    a type reference (the payload). *)
Theorem getEventListenerParamType_Ok_iff (name : PropertyName)
  (parameters : list Node) (type : option Node) (methodName : string)
  (payload : option Node) :
  getEventListenerParamType (MethodSignature name parameters type) methodName
    = Ok payload <->
  exists listener callbackParameters callbackType,
    parameters = [listener] /\
    node_type listener = Some (FunctionType callbackParameters callbackType) /\
    ((callbackParameters = [] /\ payload = None) \/
     (exists parameter typeName typeArguments,
         callbackParameters = [parameter] /\
         node_type parameter = Some (TypeReference typeName typeArguments) /\
         payload = Some (TypeReference typeName typeArguments))).
Proof.
  unfold getEventListenerParamType. split.
  - destruct parameters as [|p [|p' ps]]; simpl; try discriminate.
    destruct (node_type p) as [[ | | | | | | | |cps ct| | ]|] eqn:E;
      try discriminate.
    unfold getParamType.
    destruct cps as [|cp [|cp' cps]]; simpl; try discriminate.
    + intros H. injection H as <-. exists p, [], ct.
      split; [reflexivity|]. split; [exact E|]. now left.
    + destruct (node_type cp) as [[ | | | | | | |tn ta| | | ]|] eqn:E';
        try discriminate.
      intros H. injection H as <-. exists p, [cp], ct.
      split; [reflexivity|]. split; [exact E|]. right.
      now exists cp, tn, ta.
  - intros [p [cps [ct [-> [Hp [[-> ->]|[cp [tn [ta [-> [Hcp ->]]]]]]]]]]];
      simpl; rewrite Hp; unfold getParamType; simpl.
    + reflexivity.
    + now rewrite Hcp.
Qed.

(** ** The event map *)

(** The type recorded for a listener whose one parameter is a function
    type. *)
Lemma eventEntry_value (domainName methodName : string) (listener : Node)
  (type : option Node) (callbackParameters : list Node)
  (callbackType : option Node) (key value : string) :
  node_type listener = Some (FunctionType callbackParameters callbackType) ->
  eventEntry domainName
    (MethodSignature (IdentifierName methodName) [listener] type)
    = Ok (Some (key, value)) ->
  match callbackParameters with
  | [] => value = "void"
  | parameter :: _ =>
      exists d t typeArguments,
        node_type parameter =
          Some (TypeReference (QualifiedName (Identifier d) t) typeArguments) /\
        value = "Crdp." ++ d ++ "." ++ t
  end.
Proof.
  intros Hp H.
  pose proof (eventEntry_method_Ok _ _ _ _ _ H) as T.
  destruct (test_on_AZ_inv _ T) as [c [rest [E Hc]]].
  revert H. unfold eventEntry. rewrite T. simpl negb. cbv iota.
  rewrite (getEventListenerParamType_listener _ _ _ _ _ _ Hp).
  subst methodName.
  unfold eventString. simpl String.get. simpl slice. cbv iota. simpl bind at 1.
  unfold getParamType.
  destruct callbackParameters as [|cp [|cp' cps]]; simpl; try discriminate.
  - intros H. now injection H as _ <-.
  - destruct (node_type cp) as [[ | | | | | | |tn ta| | | ]|] eqn:E';
      simpl; try discriminate.
    destruct tn as [t|[d|l r] t]; simpl; try discriminate.
    intros H. injection H as _ <-. now exists d, t, ta.
Qed.

(** X10. The type recorded for an event: when the extraction returns a map,
    a listener whose callback takes no parameter is recorded with [void], and
    one whose callback takes a parameter is recorded with [Crdp.d.t], where
    [d.t] is the declared type of that parameter. *)
Theorem listener_event_type (sourceRoot : Node)
  (domainName name methodName : string) (listener : Node)
  (type : option Node) (callbackParameters : list Node)
  (callbackType : option Node) (pre post : list Node)
  (eventMap : Map string) :
  let member :=
    MethodSignature (IdentifierName methodName) [listener] type in
  findFirstInterfaceOrModule sourceRoot (domainName ++ "Client") =
    Some (InterfaceDeclaration name (pre ++ member :: post)%list) ->
  forallb (fun member => negb (isMethodNamed methodName member)) post = true ->
  node_type listener = Some (FunctionType callbackParameters callbackType) ->
  getEventMap sourceRoot domainName = Ok eventMap ->
  exists eventType,
    get eventMap (domainName ++ "." ++ eventNameOf methodName)
      = Some eventType /\
    match callbackParameters with
    | [] => eventType = "void"
    | parameter :: _ =>
        exists d t typeArguments,
          node_type parameter =
            Some (TypeReference (QualifiedName (Identifier d) t)
                    typeArguments) /\
          eventType = "Crdp." ++ d ++ "." ++ t
    end.
Proof.
  intros member Hfind Hpost Hp Hmap.
  rewrite (getEventMap_memberLoop _ _ _ _ Hfind) in Hmap.
  assert (Hall : exists m', memberLoop (eventEntry domainName)
                              (pre ++ member :: post)%list [] = Ok m')
    by now exists eventMap.
  apply memberLoop_Ok_iff in Hall. rewrite Forall_forall in Hall.
  destruct (Hall member) as [entry Hentry].
  { apply in_or_app. right. now left. }
  pose proof (eventEntry_method_Ok _ _ _ _ _ Hentry) as T.
  destruct (eventEntry_listener _ _ _ _ _ T Hentry) as [value ->].
  exists value. split.
  - exact (memberLoop_get_last _ _ _ _ _ _ Hentry
             (other_names_other_keys _ _ _ _ _ _ _ Hentry Hpost) _ _ Hmap).
  - exact (eventEntry_value _ _ _ _ _ _ _ _ Hp Hentry).
Qed.

Lemma listener_event_type_witness :
  exists eventType,
    get [("Network.requestWillBeSent", "Crdp.Network.RequestWillBeSentEvent");
         ("Network.loadingFinished", "void")]
        ("Network" ++ "." ++ eventNameOf "onRequestWillBeSent")
      = Some eventType /\
    exists d t typeArguments,
      node_type (Sample.param (Sample.ref "Network" "RequestWillBeSentEvent")) =
        Some (TypeReference (QualifiedName (Identifier d) t) typeArguments) /\
      eventType = "Crdp." ++ d ++ "." ++ t.
Proof.
  apply (listener_event_type Sample.sourceRoot "Network" "NetworkClient"
           "onRequestWillBeSent"
           (ParameterDeclaration "listener"
              (Some (FunctionType
                       [Sample.param
                          (Sample.ref "Network" "RequestWillBeSentEvent")]
                       (Some VoidKeyword))))
           (Some VoidKeyword)
           [Sample.param (Sample.ref "Network" "RequestWillBeSentEvent")]
           (Some VoidKeyword)
           [] [Sample.listener "onLoadingFinished" []]).
  - reflexivity.
  - reflexivity.
  - reflexivity.
  - reflexivity.
Defined.

(** ** Where the exceptions of the two maps come from *)

Section MemberLoopErrors.
Context {V : Type}.
Variable entryOf : Node -> result (option (string * V)).

(** The loop stops at the first member that throws. *)
Lemma memberLoop_first_throw (pre post : list Node) (member : Node)
  (e : exn) :
  Forall (fun x => exists entry, entryOf x = Ok entry) pre ->
  entryOf member = Throw e ->
  forall m, memberLoop entryOf (pre ++ member :: post)%list m = Throw e.
Proof.
  intros Hpre Hm. induction Hpre as [|x pre [entry Hx] _ IH]; intros m; simpl.
  - now rewrite Hm.
  - rewrite Hx. simpl. apply IH.
Qed.

(** An exception of the loop is the exception of one of the members. *)
Lemma memberLoop_throw_origin (members : list Node) (e : exn) :
  forall m,
    memberLoop entryOf members m = Throw e ->
    exists member, In member members /\ entryOf member = Throw e.
Proof.
  induction members as [|x rest IH]; simpl; intros m H; [discriminate|].
  destruct (entryOf x) as [entry|e'] eqn:E; simpl in H.
  - destruct (IH _ H) as [member [Hin Hm]]. exists member. split; auto.
  - injection H as ->. exists x. split; auto.
Qed.

Lemma In_set (m : Map V) (key k : string) (value v : V) :
  In (k, v) (set m key value) -> (k, v) = (key, value) \/ In (k, v) m.
Proof.
  induction m as [|[k' v'] m IH]; simpl.
  - intros [H|[]]. left. now symmetry.
  - destruct (eqb_spec k' key) as [->|ne]; simpl.
    + intros [H|H]; [left; now symmetry | right; now right].
    + intros [H|H]; [right; now left|].
      destruct (IH H) as [H'|H']; [now left | right; now right].
Qed.

(** Every entry of the finished map was given by a member or was there at
    the start. *)
Lemma memberLoop_In (members : list Node) (k : string) (v : V) :
  forall m m',
    memberLoop entryOf members m = Ok m' ->
    In (k, v) m' ->
    In (k, v) m \/
    exists member, In member members /\ entryOf member = Ok (Some (k, v)).
Proof.
  induction members as [|x rest IH]; simpl; intros m m' H Hin.
  - injection H as <-. now left.
  - destruct (entryOf x) as [entry|e] eqn:E; simpl in H; [|discriminate].
    destruct (IH _ _ H Hin) as [Hm|[member [Hmem Hentry]]].
    + destruct entry as [[key value]|]; simpl in Hm; [|now left].
      destruct (In_set _ _ _ _ _ Hm) as [Heq|Hm']; [|now left].
      injection Heq as -> ->. right. exists x. split; auto.
    + right. exists member. split; auto.
Qed.

(** Members that give no entry can be left out. *)
Lemma memberLoop_filter (keep : Node -> bool) (members : list Node) :
  (forall member, keep member = false -> entryOf member = Ok None) ->
  forall m,
    memberLoop entryOf (filter keep members) m = memberLoop entryOf members m.
Proof.
  intros Hskip. induction members as [|x rest IH]; intros m; simpl;
    [reflexivity|].
  destruct (keep x) eqn:K; simpl.
  - destruct (entryOf x); simpl; [apply IH | reflexivity].
  - rewrite (Hskip _ K). simpl. apply IH.
Qed.
End MemberLoopErrors.

Lemma eventEntry_error_not_E (domainName : string) (member : Node)
  (rest : string) :
  eventEntry domainName member <> Throw (Error (String "E" rest)).
Proof.
  unfold eventEntry.
  destruct member as [ | | | | |n ps t| | | | | ]; try discriminate.
  destruct n as [methodName| | | ]; try discriminate.
  destruct (test_on_AZ methodName); simpl; try discriminate.
  unfold eventString.
  destruct (String.get 2 methodName); simpl; try discriminate.
  unfold getEventListenerParamType. simpl.
  destruct ps as [|p [|p' ps]]; simpl; try discriminate.
  destruct (node_type p) as [[ | | | | | | | |cps ct| | ]|]; simpl;
    try discriminate.
  unfold getParamType. simpl.
  destruct cps as [|cp [|cp' cps]]; simpl; try discriminate.
  destruct (node_type cp) as [[ | | | | | | |tn ta| | | ]|]; simpl;
    try discriminate.
  destruct tn as [x|[d|l r] x]; simpl; discriminate.
Qed.

(** X11. The event map of a domain throws [Events interface not found]
    exactly when the first interface or module called [<domain>Client], in
    document order, is not an interface: none exists, or a module of that
    name comes first. No member of the interface can cause this error. *)
Theorem getEventMap_not_found_iff (sourceRoot : Node) (domainName : string) :
  getEventMap sourceRoot domainName =
    Throw (Error ("Events interface not found for domain '" ++
                  domainName ++ "'.")) <->
  match find (isTarget (domainName ++ "Client")) (preorder sourceRoot) with
  | Some found => isInterfaceDeclaration found = false
  | None => True
  end.
Proof.
  unfold getEventMap, findFirstInterfaceOrModule. rewrite walker_find.
  destruct (find _ _) as [[ | | |n ms| | | | | | | ]|];
    try (split; [intros _; reflexivity | reflexivity]).
  rewrite eventLoop_memberLoop. split; [|discriminate].
  intros H. exfalso.
  destruct (memberLoop_throw_origin _ _ _ _ H) as [member [_ Hm]].
  exact (eventEntry_error_not_E _ _ _ Hm).
Qed.

Lemma lastChar_append (a b : string) :
  lastChar (a ++ b) =
  match lastChar b with
  | Some c => Some c
  | None => lastChar a
  end.
Proof.
  induction a as [|x a IH]; simpl.
  - destruct (lastChar b); reflexivity.
  - rewrite IH. destruct (lastChar b); [reflexivity|].
    destruct (lastChar a); reflexivity.
Qed.

Lemma bind_Throw {A B : Type} (r : result A) (k : A -> result B) (e : exn) :
  bind r k = Throw e ->
  r = Throw e \/ exists a, r = Ok a /\ k a = Throw e.
Proof.
  destruct r as [a|e']; simpl; intros H.
  - right. now exists a.
  - left. now injection H as ->.
Qed.

Lemma getParamType_error_not_C (functionNode : Node) (debugName rest : string) :
  getParamType functionNode debugName <> Throw (Error (String "C" rest)).
Proof.
  unfold getParamType.
  destruct (node_parameters functionNode) as [[|p [|p' ps]]|]; simpl;
    try discriminate.
  destruct (node_type p) as [[ | | | | | | |tn ta| | | ]|]; discriminate.
Qed.

Lemma getTypeName_error_not_C (typeNode : Node) (debugName rest : string) :
  getTypeName typeNode debugName <> Throw (Error (String "C" rest)).
Proof.
  destruct typeNode as [ | | | | | | |tn ta| | | ]; try discriminate.
  destruct tn as [x|[d|l r] x]; simpl; discriminate.
Qed.

Lemma isWeakInterface_error_not_C (sourceRoot : Node)
  (domainName interfaceName rest : string) :
  isWeakInterface sourceRoot domainName interfaceName <>
  Throw (Error (String "C" rest)).
Proof.
  unfold isWeakInterface.
  destruct (findFirstInterfaceOrModule sourceRoot domainName)
    as [[ |mn b| | | | | | | | | ]|]; try (simpl; discriminate).
  destruct (findFirstInterfaceOrModule (ModuleDeclaration mn b) interfaceName)
    as [[ | | |n' ms| | | | | | | ]|]; simpl; discriminate.
Qed.

Lemma getPromisedReturnType_error_not_C (functionNode : Node)
  (debugName rest : string) :
  getPromisedReturnType functionNode debugName <>
  Throw (Error (String "C" rest)).
Proof.
  unfold getPromisedReturnType.
  destruct (node_type functionNode) as [[ | | | | | | |tn ta| | | ]|];
    try discriminate.
  destruct tn as [x|]; [|discriminate].
  destruct ta as [args|]; [|discriminate].
  destruct (x =? "Promise"); simpl; [|discriminate].
  destruct args as [|a [|a' args]]; simpl; try discriminate.
  destruct a as [ | | | | | | |tn ta| | | ]; try discriminate.
  destruct tn as [y|[d|l r] y]; simpl; discriminate.
Qed.

Lemma commandEntry_error_not_found (sourceRoot : Node)
  (domainName domainName' : string) (member : Node) :
  commandEntry sourceRoot domainName member <>
  Throw (Error ("Command interface not found for domain '" ++
                domainName' ++ "'.")).
Proof.
  unfold commandEntry.
  destruct member as [ | | | |n q ty| | | | | | ]; try discriminate.
  destruct n as [text| | | ]; try discriminate.
  destruct ty as [[ | | | | | | | |ps t| | ]|];
    try (intros H; injection H as H;
         apply (f_equal lastChar) in H;
         simpl in H; rewrite !lastChar_append in H; simpl in H;
         discriminate).
  intros H.
  apply bind_Throw in H as [H|[raw [_ H]]];
    [exact (getParamType_error_not_C _ _ _ H)|].
  apply bind_Throw in H as [H|[pt [_ H]]].
  - destruct raw as [r|]; [|discriminate].
    apply bind_Throw in H as [H|[n [_ H]]];
      [exact (getTypeName_error_not_C _ _ _ H)|].
    cbv zeta in H.
    apply bind_Throw in H as [H|[weak [_ H]]];
      [exact (isWeakInterface_error_not_C _ _ _ _ H)|].
    destruct weak; discriminate.
  - apply bind_Throw in H as [H|[r [_ H]]];
      [exact (getPromisedReturnType_error_not_C _ _ _ H) | discriminate].
Qed.

(** X12. The command map of a domain throws [Command interface not found]
    exactly when the first interface or module called [<domain>Commands], in
    document order, is not an interface. No member of the interface can cause
    this error, not even a property without a function type, whose own error
    starts with the same word. *)
Theorem getCommandMap_not_found_iff (sourceRoot : Node) (domainName : string) :
  getCommandMap sourceRoot domainName =
    Throw (Error ("Command interface not found for domain '" ++
                  domainName ++ "'.")) <->
  match find (isTarget (domainName ++ "Commands")) (preorder sourceRoot) with
  | Some found => isInterfaceDeclaration found = false
  | None => True
  end.
Proof.
  unfold getCommandMap, findFirstInterfaceOrModule. rewrite walker_find.
  destruct (find _ _) as [[ | | |n ms| | | | | | | ]|];
    try (split; [intros _; reflexivity | reflexivity]).
  rewrite commandLoop_memberLoop. split; [|discriminate].
  intros H. exfalso.
  destruct (memberLoop_throw_origin _ _ _ _ H) as [member [_ Hm]].
  exact (commandEntry_error_not_found _ _ _ _ Hm).
Qed.

(** X13. The event map stops at the first member that throws: when the
    members before it pass, the exception of the extraction is that member's
    exception, whatever comes after it. *)
Theorem getEventMap_first_throw (sourceRoot : Node)
  (domainName name : string) (pre post : list Node) (member : Node)
  (e : exn) :
  findFirstInterfaceOrModule sourceRoot (domainName ++ "Client") =
    Some (InterfaceDeclaration name (pre ++ member :: post)%list) ->
  Forall (fun x => exists entry, eventEntry domainName x = Ok entry) pre ->
  eventEntry domainName member = Throw e ->
  getEventMap sourceRoot domainName = Throw e.
Proof.
  intros Hfind Hpre Hm.
  rewrite (getEventMap_memberLoop _ _ _ _ Hfind).
  now apply memberLoop_first_throw.
Qed.

Lemma getEventMap_first_throw_witness :
  getEventMap (Broken.root Broken.clientMembers []) "Network" =
  Throw (TypeError "type").
Proof.
  apply (getEventMap_first_throw (Broken.root Broken.clientMembers [])
           "Network" "NetworkClient"
           [Sample.listener "onLoadingFinished" []]
           [Sample.listener "dataLost" []]
           (MethodSignature (IdentifierName "onDataReceived") []
              (Some VoidKeyword))).
  - reflexivity.
  - repeat constructor. eexists. reflexivity.
  - reflexivity.
Defined.

(** X14. The command map stops at the first member that throws, in the same
    way. *)
Theorem getCommandMap_first_throw (sourceRoot : Node)
  (domainName name : string) (pre post : list Node) (member : Node)
  (e : exn) :
  findFirstInterfaceOrModule sourceRoot (domainName ++ "Commands") =
    Some (InterfaceDeclaration name (pre ++ member :: post)%list) ->
  Forall (fun x => exists entry,
              commandEntry sourceRoot domainName x = Ok entry) pre ->
  commandEntry sourceRoot domainName member = Throw e ->
  getCommandMap sourceRoot domainName = Throw e.
Proof.
  intros Hfind Hpre Hm.
  rewrite (getCommandMap_memberLoop _ _ _ _ Hfind).
  now apply memberLoop_first_throw.
Qed.

Lemma getCommandMap_first_throw_witness :
  getCommandMap (Broken.root [] Broken.brokenCommands) "Network" =
  Throw (Error "Command Network.version did not have an assigned function").
Proof.
  apply (getCommandMap_first_throw (Broken.root [] Broken.brokenCommands)
           "Network" "NetworkCommands" [Sample.enable] []
           (PropertySignature (IdentifierName "version") false
              (Some (OtherNode [])))).
  - reflexivity.
  - repeat constructor. eexists. reflexivity.
  - reflexivity.
Defined.

(** X15. The loop of the event map looks at method signatures only, and the
    loop of the command map at property signatures only: the other members
    of the interface change neither the map nor the exception. *)
Theorem loops_skip_other_members :
  (forall domainName members eventMap,
      eventLoop domainName members eventMap =
      eventLoop domainName (filter isMethodSignature members) eventMap) /\
  (forall sourceRoot domainName members commandMap,
      commandLoop sourceRoot domainName members commandMap =
      commandLoop sourceRoot domainName
        (filter isPropertySignature members) commandMap).
Proof.
  split.
  - intros domainName members eventMap.
    rewrite !eventLoop_memberLoop. symmetry. apply memberLoop_filter.
    intros [ | | | | | | | | | | ]; simpl; try reflexivity; discriminate.
  - intros sourceRoot domainName members commandMap.
    rewrite !commandLoop_memberLoop. symmetry. apply memberLoop_filter.
    intros [ | | | | | | | | | | ]; simpl; try reflexivity; discriminate.
Qed.

Lemma eventEntry_value_shape (domainName : string) (member : Node)
  (key value : string) :
  eventEntry domainName member = Ok (Some (key, value)) ->
  value = "void" \/ exists d t, value = "Crdp." ++ d ++ "." ++ t.
Proof.
  unfold eventEntry.
  destruct member as [ | | | | |n ps t| | | | | ]; try discriminate.
  destruct n as [methodName| | | ]; try discriminate.
  destruct (test_on_AZ methodName); simpl; [|discriminate].
  destruct (eventString methodName); simpl; [|discriminate].
  destruct (getEventListenerParamType _ _) as [raw|e]; simpl; [|discriminate].
  destruct raw as [raw|].
  - destruct (getTypeName raw _) as [n|e]; simpl; [|discriminate].
    intros H. injection H as _ <-. right. now exists (domain n), (type n).
  - intros H. injection H as _ <-. now left.
Qed.

(** X16. Every entry of a returned event map comes from a listener method of
    the interface: its key is the domain, a dot and the event name of a
    method called [on] and a capital, and its type is [void] or a name
    [Crdp.d.t]. No key is in the map twice. *)
Theorem getEventMap_entries (sourceRoot : Node) (domainName name : string)
  (members : list Node) (eventMap : Map string) :
  findFirstInterfaceOrModule sourceRoot (domainName ++ "Client") =
    Some (InterfaceDeclaration name members) ->
  getEventMap sourceRoot domainName = Ok eventMap ->
  NoDup (keys eventMap) /\
  forall key eventType,
    In (key, eventType) eventMap ->
    exists methodName ps t,
      In (MethodSignature (IdentifierName methodName) ps t) members /\
      test_on_AZ methodName = true /\
      key = domainName ++ "." ++ eventNameOf methodName /\
      (eventType = "void" \/
       exists d ty, eventType = "Crdp." ++ d ++ "." ++ ty).
Proof.
  intros Hfind Hmap.
  rewrite (getEventMap_memberLoop _ _ _ _ Hfind) in Hmap. split.
  - rewrite (memberLoop_keys_empty _ _ _ Hmap). apply NoDup_firstOccurrences.
  - intros key eventType Hin.
    destruct (memberLoop_In _ _ _ _ _ _ Hmap Hin) as [[]|[member [Hm He]]].
    destruct (eventEntry_Some_inv _ _ _ _ He)
      as [methodName [ps [t [c [rest [-> [En [Hc K]]]]]]]].
    exists methodName, ps, t. split; [exact Hm|].
    split; [subst methodName; exact Hc|].
    split; [subst methodName; exact K|].
    exact (eventEntry_value_shape _ _ _ _ He).
Qed.

Lemma getEventMap_entries_witness :
  NoDup (keys [("Network.requestWillBeSent",
                "Crdp.Network.RequestWillBeSentEvent");
               ("Network.loadingFinished", "void")]) /\
  forall key eventType,
    In (key, eventType)
       [("Network.requestWillBeSent", "Crdp.Network.RequestWillBeSentEvent");
        ("Network.loadingFinished", "void")] ->
    exists methodName ps t,
      In (MethodSignature (IdentifierName methodName) ps t)
         [ Sample.listener "onRequestWillBeSent"
             [Sample.param (Sample.ref "Network" "RequestWillBeSentEvent")];
           Sample.listener "onLoadingFinished" [] ] /\
      test_on_AZ methodName = true /\
      key = "Network" ++ "." ++ eventNameOf methodName /\
      (eventType = "void" \/
       exists d ty, eventType = "Crdp." ++ d ++ "." ++ ty).
Proof.
  apply (getEventMap_entries Sample.sourceRoot "Network" "NetworkClient").
  - reflexivity.
  - reflexivity.
Defined.

Lemma commandEntry_types_shape (sourceRoot : Node) (domainName : string)
  (member : Node) (key : string) (types : CommandTypes) :
  commandEntry sourceRoot domainName member = Ok (Some (key, types)) ->
  (paramsType types = "void" \/
   exists d t,
     paramsType types = "Crdp." ++ d ++ "." ++ t \/
     paramsType types = "void | Crdp." ++ d ++ "." ++ t) /\
  (returnType types = "void" \/
   exists d t, returnType types = "Crdp." ++ d ++ "." ++ t).
Proof.
  unfold commandEntry.
  destruct member as [ | | | |n q ty| | | | | | ]; try discriminate.
  destruct n as [text| | | ]; try discriminate.
  destruct ty as [[ | | | | | | | |ps t| | ]|]; try discriminate.
  destruct (getParamType _ _) as [raw|e]; simpl; [|discriminate].
  destruct (match raw with Some _ => _ | None => _ end) as [pt|e] eqn:P;
    simpl; [|discriminate].
  destruct (getPromisedReturnType _ _) as [r|e] eqn:R; simpl; [|discriminate].
  intros H. injection H as _ <-. simpl. split.
  - destruct raw as [raw|]; [|injection P as <-; now left].
    destruct (getTypeName raw _) as [n|e]; simpl in P; [|discriminate].
    destruct (isWeakInterface _ _ _) as [[]|e]; simpl in P;
      try discriminate; injection P as <-; right;
      exists (domain n), (type n); [now right | now left].
  - apply getPromisedReturnType_Ok_iff in R.
    destruct R as [_|d t' ta _]; [now left|].
    destruct (_ =? "void"); [now left | right; now exists d, t'].
Qed.

(** X17. Every entry of a returned command map comes from a property
    signature of the interface, under the domain, a dot and the property's
    name; its parameter type is [void], [Crdp.d.t] or [void | Crdp.d.t], and
    its return type is [void] or [Crdp.d.t]. No key is in the map twice. *)
Theorem getCommandMap_entries (sourceRoot : Node) (domainName name : string)
  (members : list Node) (commandMap : Map CommandTypes) :
  findFirstInterfaceOrModule sourceRoot (domainName ++ "Commands") =
    Some (InterfaceDeclaration name members) ->
  getCommandMap sourceRoot domainName = Ok commandMap ->
  NoDup (keys commandMap) /\
  forall key types,
    In (key, types) commandMap ->
    (exists text q ty,
        In (PropertySignature (IdentifierName text) q ty) members /\
        key = domainName ++ "." ++ text) /\
    (paramsType types = "void" \/
     exists d t,
       paramsType types = "Crdp." ++ d ++ "." ++ t \/
       paramsType types = "void | Crdp." ++ d ++ "." ++ t) /\
    (returnType types = "void" \/
     exists d t, returnType types = "Crdp." ++ d ++ "." ++ t).
Proof.
  intros Hfind Hmap.
  rewrite (getCommandMap_memberLoop _ _ _ _ Hfind) in Hmap. split.
  - rewrite (memberLoop_keys_empty _ _ _ Hmap). apply NoDup_firstOccurrences.
  - intros key types Hin.
    destruct (memberLoop_In _ _ _ _ _ _ Hmap Hin) as [[]|[member [Hm He]]].
    split; [|exact (commandEntry_types_shape _ _ _ _ _ He)].
    destruct (commandEntry_Some_inv _ _ _ _ _ He) as [text [Hn K]].
    destruct member as [ | | | |[t'| | | ] q ty| | | | | | ];
      try discriminate.
    simpl in Hn. apply eqb_eq in Hn. subst t'.
    now exists text, q, ty.
Qed.

Lemma getCommandMap_entries_witness :
  exists commandMap,
    getCommandMap Sample.sourceRoot "Network" = Ok commandMap /\
    NoDup (keys commandMap) /\
    forall key types,
      In (key, types) commandMap ->
      (exists text q ty,
          In (PropertySignature (IdentifierName text) q ty)
             [ Sample.enable;
               Sample.command "getCookies"
                 [Sample.param (Sample.ref "Network" "GetCookiesRequest")]
                 (Sample.ref "Network" "GetCookiesResponse");
               Sample.command "setUserAgentOverride"
                 [Sample.param
                    (Sample.ref "Network" "SetUserAgentOverrideRequest")]
                 VoidKeyword;
               Sample.command "mark"
                 [Sample.param (Sample.ref "Network" "Marker")] VoidKeyword ] /\
          key = "Network" ++ "." ++ text) /\
      (paramsType types = "void" \/
       exists d t,
         paramsType types = "Crdp." ++ d ++ "." ++ t \/
         paramsType types = "void | Crdp." ++ d ++ "." ++ t) /\
      (returnType types = "void" \/
       exists d t, returnType types = "Crdp." ++ d ++ "." ++ t).
Proof.
  eexists. split; [reflexivity|].
  apply (getCommandMap_entries Sample.sourceRoot "Network" "NetworkCommands").
  - reflexivity.
  - reflexivity.
Defined.

(** X18. Two listener names that pass the naming convention and give the
    same event key are the same name: listeners of different names never
    write to one key. *)
Theorem listener_keys_injective (domainName methodName methodName' : string) :
  test_on_AZ methodName = true ->
  test_on_AZ methodName' = true ->
  domainName ++ "." ++ eventNameOf methodName =
  domainName ++ "." ++ eventNameOf methodName' ->
  methodName = methodName'.
Proof.
  intros T T' K.
  destruct (test_on_AZ_inv _ T) as [c [rest [-> Hc]]].
  destruct (test_on_AZ_inv _ T') as [c' [rest' [-> Hc']]].
  apply append_inv_l in K. simpl in K. injection K as Ec <-.
  now rewrite (toLowerCase_upper_inj _ _ Hc Hc' Ec).
Qed.

Lemma listener_keys_injective_witness :
  "onDataReceived" = "onDataReceived".
Proof.
  apply (listener_keys_injective "Network" "onDataReceived" "onDataReceived");
    reflexivity.
Defined.

(** ** The command map *)

(** X19. When the [Commands] interface of a domain declares two properties
    of one name, and every member passes its own checks, the extraction does
    not throw; the map has exactly one entry under the name, with the types
    of the later property, and the keys stand in the order of their first
    insertion. *)
Theorem duplicate_command_last_wins (sourceRoot : Node)
  (domainName name text : string) (pre mid post : list Node)
  (q1 q2 : bool) (ty1 ty2 : option Node) :
  let first := PropertySignature (IdentifierName text) q1 ty1 in
  let second := PropertySignature (IdentifierName text) q2 ty2 in
  let members := (pre ++ first :: mid ++ second :: post)%list in
  findFirstInterfaceOrModule sourceRoot (domainName ++ "Commands") =
    Some (InterfaceDeclaration name members) ->
  Forall (fun member => exists entry,
              commandEntry sourceRoot domainName member = Ok entry) members ->
  forallb (fun member => negb (isPropertyNamed text member)) post = true ->
  exists commandMap types1 types2,
    getCommandMap sourceRoot domainName = Ok commandMap /\
    commandEntry sourceRoot domainName first =
      Ok (Some (domainName ++ "." ++ text, types1)) /\
    commandEntry sourceRoot domainName second =
      Ok (Some (domainName ++ "." ++ text, types2)) /\
    get commandMap (domainName ++ "." ++ text) = Some types2 /\
    count_occ string_dec (keys commandMap) (domainName ++ "." ++ text) = 1 /\
    keys commandMap =
      firstOccurrences
        (emittedKeys (commandEntry sourceRoot domainName) members).
Proof.
  intros first second members Hfind Hall Hpost.
  destruct (proj2 (memberLoop_Ok_iff (commandEntry sourceRoot domainName)
                     members []) Hall) as [commandMap Hmap].
  assert (Hin1 : In first members).
  { unfold members. apply in_or_app. right. now left. }
  rewrite Forall_forall in Hall.
  destruct (Hall _ Hin1) as [e1 H1].
  destruct (commandEntry_property _ _ _ _ _ _ H1) as [types1 ->].
  assert (Hget : getCommandMap sourceRoot domainName = Ok commandMap).
  { now rewrite (getCommandMap_memberLoop _ _ _ _ Hfind). }
  unfold members in Hfind.
  change (pre ++ first :: mid ++ second :: post)%list
    with (pre ++ (first :: mid) ++ second :: post)%list in Hfind.
  rewrite app_assoc in Hfind.
  destruct (getCommandMap_get _ _ _ _ _ _ _ _ _ Hfind Hpost Hget)
    as [types2 [H2 Hlast]].
  exists commandMap, types1, types2.
  split; [exact Hget|]. split; [exact H1|]. split; [exact H2|].
  split; [exact Hlast|]. split.
  - apply (keys_count_once _ _ _ _ Hmap).
    exact (In_emittedKeys _ _ _ _ _ Hin1 H1).
  - exact (memberLoop_keys_empty _ _ _ Hmap).
Qed.

Lemma duplicate_command_last_wins_witness :
  exists commandMap types1 types2,
    getCommandMap (Broken.root [] Broken.duplicateCommands) "Network"
      = Ok commandMap /\
    commandEntry (Broken.root [] Broken.duplicateCommands) "Network"
      Sample.enable = Ok (Some ("Network" ++ "." ++ "enable", types1)) /\
    commandEntry (Broken.root [] Broken.duplicateCommands) "Network"
      (Sample.command "enable"
         [Sample.param (Sample.ref "Network" "GetCookiesRequest")]
         (Sample.ref "Network" "GetCookiesResponse"))
      = Ok (Some ("Network" ++ "." ++ "enable", types2)) /\
    get commandMap ("Network" ++ "." ++ "enable") = Some types2 /\
    count_occ string_dec (keys commandMap) ("Network" ++ "." ++ "enable") = 1 /\
    keys commandMap =
      firstOccurrences
        (emittedKeys
           (commandEntry (Broken.root [] Broken.duplicateCommands) "Network")
           Broken.duplicateCommands).
Proof.
  apply (duplicate_command_last_wins
           (Broken.root [] Broken.duplicateCommands) "Network"
           "NetworkCommands" "enable"
           [] [Sample.command "disable" [] VoidKeyword] []).
  - reflexivity.
  - repeat constructor; eexists; reflexivity.
  - reflexivity.
Defined.

Lemma qualified_is_not_void (d t : string) : (d ++ "." ++ t =? "void") = false.
Proof.
  apply eqb_neq.
  destruct d as [|a [|b [|c [|x [|y d]]]]]; simpl; intros H;
    injection H; intros; discriminate.
Qed.

(** X20. A command that returns [Promise<d.t>] has the return type
    [Crdp.d.t] in the finished map: a payload with a qualified name is never
    taken for [void]. *)
Theorem promise_reference_return_type (sourceRoot : Node)
  (domainName name text : string) (q : bool) (ps : list Node)
  (d t : string) (typeArguments : option (list Node))
  (pre post : list Node) (commandMap : Map CommandTypes) :
  let member :=
    PropertySignature (IdentifierName text) q
      (Some (FunctionType ps
               (Some (TypeReference (Identifier "Promise")
                        (Some [TypeReference (QualifiedName (Identifier d) t)
                                 typeArguments]))))) in
  findFirstInterfaceOrModule sourceRoot (domainName ++ "Commands") =
    Some (InterfaceDeclaration name (pre ++ member :: post)%list) ->
  forallb (fun member => negb (isPropertyNamed text member)) post = true ->
  getCommandMap sourceRoot domainName = Ok commandMap ->
  exists types,
    get commandMap (domainName ++ "." ++ text) = Some types /\
    returnType types = "Crdp." ++ d ++ "." ++ t.
Proof.
  intros member Hfind Hpost Hmap.
  destruct (getCommandMap_get _ _ _ _ _ _ _ _ _ Hfind Hpost Hmap)
    as [types [Hentry Hget]].
  exists types. split; [exact Hget|].
  revert Hentry. unfold member, commandEntry.
  destruct (getParamType _ _) as [raw|e]; cbn [bind]; [|discriminate].
  destruct (match raw with Some _ => _ | None => _ end) as [pt|e];
    cbn [bind]; [|discriminate].
  replace (getPromisedReturnType _ _) with (Ok (d ++ "." ++ t))
    by reflexivity.
  cbn [bind]. intros H. injection H as <-. cbn [returnType].
  pose proof (qualified_is_not_void d t) as Hv. cbn [append] in Hv |- *.
  now rewrite Hv.
Qed.

Lemma promise_reference_return_type_witness :
  exists types,
    get [("Network.enable", {| paramsType := "void"; returnType := "void" |});
         ("Network.getCookies",
          {| paramsType := "void | Crdp.Network.GetCookiesRequest";
             returnType := "Crdp.Network.GetCookiesResponse" |});
         ("Network.setUserAgentOverride",
          {| paramsType := "Crdp.Network.SetUserAgentOverrideRequest";
             returnType := "void" |});
         ("Network.mark",
          {| paramsType := "void | Crdp.Network.Marker";
             returnType := "void" |})]
        ("Network" ++ "." ++ "getCookies") = Some types /\
    returnType types = "Crdp." ++ "Network" ++ "." ++ "GetCookiesResponse".
Proof.
  apply (promise_reference_return_type Sample.sourceRoot "Network"
           "NetworkCommands" "getCookies" false
           [Sample.param (Sample.ref "Network" "GetCookiesRequest")]
           "Network" "GetCookiesResponse" None
           [Sample.enable]
           [ Sample.command "setUserAgentOverride"
               [Sample.param
                  (Sample.ref "Network" "SetUserAgentOverrideRequest")]
               VoidKeyword;
             Sample.command "mark"
               [Sample.param (Sample.ref "Network" "Marker")] VoidKeyword ]).
  - reflexivity.
  - reflexivity.
  - reflexivity.
Defined.

(** ** The whole text *)

Lemma eventDomainLoop_of_maps (sourceRoot : Node) (indentLevel : nat)
  (domainNames : list string) (maps : list (Map string)) :
  Forall2 (fun domainName eventMap =>
             getEventMap sourceRoot domainName = Ok eventMap)
          domainNames maps ->
  forall outputStr,
    eventDomainLoop sourceRoot domainNames indentLevel outputStr =
    Ok (outputStr ++
        concatStrings (map (renderEvent indentLevel) (List.concat maps))).
Proof.
  induction 1 as [|d m ds ms Hd _ IH]; intros outputStr; simpl.
  - now rewrite append_empty_r.
  - rewrite Hd. simpl. rewrite IH.
    now rewrite fold_appendEvent, map_app, concatStrings_app, append_assoc.
Qed.

Lemma commandDomainLoop_of_maps (sourceRoot : Node) (indentLevel : nat)
  (domainNames : list string) (maps : list (Map CommandTypes)) :
  Forall2 (fun domainName commandMap =>
             getCommandMap sourceRoot domainName = Ok commandMap)
          domainNames maps ->
  forall outputStr,
    commandDomainLoop sourceRoot domainNames indentLevel outputStr =
    Ok (outputStr ++
        concatStrings (map (renderCommand indentLevel) (List.concat maps))).
Proof.
  induction 1 as [|d m ds ms Hd _ IH]; intros outputStr; simpl.
  - now rewrite append_empty_r.
  - rewrite Hd. simpl. rewrite IH.
    now rewrite fold_appendCommand, map_app, concatStrings_app, append_assoc.
Qed.

Lemma outputEventMap_Ok_iff (sourceRoot : Node) (domainNames : list string)
  (indentLevel : nat) (text : string) :
  outputEventMap sourceRoot domainNames indentLevel = Ok text <->
  exists maps,
    Forall2 (fun domainName eventMap =>
               getEventMap sourceRoot domainName = Ok eventMap)
            domainNames maps /\
    text = eventsBlock indentLevel maps.
Proof.
  unfold outputEventMap, eventsBlock, OUTPUT_EVENTS_NAME. split.
  - destruct (eventDomainLoop _ _ _ _) as [out|e] eqn:E; simpl;
      [|discriminate].
    intros H. injection H as <-.
    destruct (eventDomainLoop_Ok _ _ _ _ _ E) as [maps [Hmaps ->]].
    exists maps. split; [exact Hmaps|]. now rewrite !append_assoc.
  - intros [maps [Hmaps ->]].
    rewrite (eventDomainLoop_of_maps _ _ _ _ Hmaps). simpl bind.
    now rewrite !append_assoc.
Qed.

Lemma outputCommandMap_Ok_iff (sourceRoot : Node) (domainNames : list string)
  (indentLevel : nat) (text : string) :
  outputCommandMap sourceRoot domainNames indentLevel = Ok text <->
  exists maps,
    Forall2 (fun domainName commandMap =>
               getCommandMap sourceRoot domainName = Ok commandMap)
            domainNames maps /\
    text = commandsBlock indentLevel maps.
Proof.
  unfold outputCommandMap, commandsBlock, OUTPUT_COMMANDS_NAME. split.
  - destruct (commandDomainLoop _ _ _ _) as [out|e] eqn:E; simpl;
      [|discriminate].
    intros H. injection H as <-.
    destruct (commandDomainLoop_Ok _ _ _ _ _ E) as [maps [Hmaps ->]].
    exists maps. split; [exact Hmaps|]. now rewrite !append_assoc.
  - intros [maps [Hmaps ->]].
    rewrite (commandDomainLoop_of_maps _ _ _ _ Hmaps). simpl bind.
    now rewrite !append_assoc.
Qed.

(** X21. The script produces a text exactly when the enumeration of the
    domains, the event map of every domain and the command map of every
    domain all return; the text is then the header, the opening lines, the
    block of the events of all domains, an empty line, the block of the
    commands of all domains, and the closing lines. *)
Theorem crdpStr_Ok_iff (headerBlock : string) (sourceRoot : Node)
  (text : string) :
  crdpStr headerBlock sourceRoot = Ok text <->
  exists domainNames eventMaps commandMaps,
    getCrdpDomainNames sourceRoot = Ok domainNames /\
    Forall2 (fun domainName eventMap =>
               getEventMap sourceRoot domainName = Ok eventMap)
            domainNames eventMaps /\
    Forall2 (fun domainName commandMap =>
               getCommandMap sourceRoot domainName = Ok commandMap)
            domainNames commandMaps /\
    text = fileText headerBlock eventMaps commandMaps.
Proof.
  unfold crdpStr, fileText. split.
  - destruct (getCrdpDomainNames sourceRoot) as [names|e]; simpl bind;
      [|discriminate].
    destruct (outputEventMap sourceRoot names 2) as [events|e] eqn:E;
      simpl bind; [|discriminate].
    destruct (outputCommandMap sourceRoot names 2) as [commands|e] eqn:C;
      simpl bind; [|discriminate].
    intros H. injection H as <-.
    apply outputEventMap_Ok_iff in E as [eventMaps [He ->]].
    apply outputCommandMap_Ok_iff in C as [commandMaps [Hc ->]].
    exists names, eventMaps, commandMaps.
    split; [reflexivity|]. split; [exact He|]. split; [exact Hc|].
    now rewrite !append_assoc.
  - intros [names [eventMaps [commandMaps [-> [He [Hc ->]]]]]]. simpl bind.
    rewrite (proj2 (outputEventMap_Ok_iff _ _ _ _)
               (ex_intro _ eventMaps (conj He eq_refl))).
    simpl bind.
    rewrite (proj2 (outputCommandMap_Ok_iff _ _ _ _)
               (ex_intro _ commandMaps (conj Hc eq_refl))).
    simpl bind. now rewrite !append_assoc.
Qed.

Lemma eventDomainLoop_first_throw (sourceRoot : Node) (indentLevel : nat)
  (pre post : list string) (domainName : string) (e : exn) :
  Forall (fun d => exists eventMap, getEventMap sourceRoot d = Ok eventMap)
         pre ->
  getEventMap sourceRoot domainName = Throw e ->
  forall outputStr,
    eventDomainLoop sourceRoot (pre ++ domainName :: post)%list indentLevel
      outputStr = Throw e.
Proof.
  intros Hpre Hd. induction Hpre as [|d pre [m Hm] _ IH]; intros outputStr;
    simpl.
  - now rewrite Hd.
  - rewrite Hm. simpl. apply IH.
Qed.

Lemma commandDomainLoop_first_throw (sourceRoot : Node) (indentLevel : nat)
  (pre post : list string) (domainName : string) (e : exn) :
  Forall (fun d => exists commandMap,
              getCommandMap sourceRoot d = Ok commandMap) pre ->
  getCommandMap sourceRoot domainName = Throw e ->
  forall outputStr,
    commandDomainLoop sourceRoot (pre ++ domainName :: post)%list indentLevel
      outputStr = Throw e.
Proof.
  intros Hpre Hd. induction Hpre as [|d pre [m Hm] _ IH]; intros outputStr;
    simpl.
  - now rewrite Hd.
  - rewrite Hm. simpl. apply IH.
Qed.

(** X22. The events of all domains are extracted before any command: when
    the event map of a domain throws, and those of the domains before it
    return, the script throws that exception and writes nothing, whatever
    the commands of any domain are. *)
Theorem crdpStr_event_throw (headerBlock : string) (sourceRoot : Node)
  (pre post : list string) (domainName : string) (e : exn) :
  getCrdpDomainNames sourceRoot = Ok (pre ++ domainName :: post)%list ->
  Forall (fun d => exists eventMap, getEventMap sourceRoot d = Ok eventMap)
         pre ->
  getEventMap sourceRoot domainName = Throw e ->
  crdpStr headerBlock sourceRoot = Throw e.
Proof.
  intros Hnames Hpre Hd. unfold crdpStr. rewrite Hnames. simpl bind.
  unfold outputEventMap.
  now rewrite (eventDomainLoop_first_throw _ _ _ _ _ _ Hpre Hd).
Qed.

Lemma crdpStr_event_throw_witness :
  crdpStr "" (Broken.root Broken.clientMembers Broken.brokenCommands) =
  Throw (TypeError "type").
Proof.
  apply (crdpStr_event_throw ""
           (Broken.root Broken.clientMembers Broken.brokenCommands)
           [] [] "Network").
  - reflexivity.
  - constructor.
  - reflexivity.
Defined.

(** X23. The exception of a command map reaches the caller when the event
    maps of all domains return: the script then throws the exception of the
    first domain whose command map throws. *)
Theorem crdpStr_command_throw (headerBlock : string) (sourceRoot : Node)
  (pre post : list string) (domainName : string) (e : exn) :
  getCrdpDomainNames sourceRoot = Ok (pre ++ domainName :: post)%list ->
  Forall (fun d => exists eventMap, getEventMap sourceRoot d = Ok eventMap)
         (pre ++ domainName :: post)%list ->
  Forall (fun d => exists commandMap,
              getCommandMap sourceRoot d = Ok commandMap) pre ->
  getCommandMap sourceRoot domainName = Throw e ->
  crdpStr headerBlock sourceRoot = Throw e.
Proof.
  intros Hnames Hevents Hpre Hd. unfold crdpStr. rewrite Hnames. simpl bind.
  assert (He : exists events,
             outputEventMap sourceRoot (pre ++ domainName :: post)%list 2
             = Ok events).
  { assert (Hmaps : exists maps,
               Forall2 (fun d m => getEventMap sourceRoot d = Ok m)
                       (pre ++ domainName :: post)%list maps).
    { clear Hnames. induction Hevents as [|d ds [m Hm] _ [maps IH]].
      - exists []. constructor.
      - exists (m :: maps). now constructor. }
    destruct Hmaps as [maps Hmaps]. eexists.
    apply outputEventMap_Ok_iff. exists maps. split; [exact Hmaps|].
    reflexivity. }
  destruct He as [events ->]. simpl bind.
  unfold outputCommandMap.
  now rewrite (commandDomainLoop_first_throw _ _ _ _ _ _ Hpre Hd).
Qed.

Lemma crdpStr_command_throw_witness :
  crdpStr ""
    (Broken.root [Sample.listener "onLoadingFinished" []]
       Broken.brokenCommands) =
  Throw (Error "Command Network.version did not have an assigned function").
Proof.
  apply (crdpStr_command_throw ""
           (Broken.root [Sample.listener "onLoadingFinished" []]
              Broken.brokenCommands)
           [] [] "Network").
  - reflexivity.
  - repeat constructor. eexists. reflexivity.
  - constructor.
  - reflexivity.
Defined.

(** ** The output is stable *)

Lemma newline_spaces (indentLevel : nat) :
  newline indentLevel = LF ++ repeat " " (2 * indentLevel).
Proof.
  unfold newline. f_equal.
  induction indentLevel as [|n IH]; [reflexivity|].
  replace (2 * S n) with (S (S (2 * n))) by lia. simpl. now rewrite IH.
Qed.

Lemma eventDomainLoop_ext (sourceRoot sourceRoot' : Node) (indentLevel : nat)
  (domainNames : list string) :
  (forall d, In d domainNames ->
             getEventMap sourceRoot d = getEventMap sourceRoot' d) ->
  forall outputStr,
    eventDomainLoop sourceRoot domainNames indentLevel outputStr =
    eventDomainLoop sourceRoot' domainNames indentLevel outputStr.
Proof.
  induction domainNames as [|d rest IH]; intros H outputStr; simpl;
    [reflexivity|].
  rewrite <- (H d (or_introl eq_refl)).
  destruct (getEventMap sourceRoot d); simpl; [|reflexivity].
  apply IH. intros d' Hd'. apply H. now right.
Qed.

Lemma commandDomainLoop_ext (sourceRoot sourceRoot' : Node)
  (indentLevel : nat) (domainNames : list string) :
  (forall d, In d domainNames ->
             getCommandMap sourceRoot d = getCommandMap sourceRoot' d) ->
  forall outputStr,
    commandDomainLoop sourceRoot domainNames indentLevel outputStr =
    commandDomainLoop sourceRoot' domainNames indentLevel outputStr.
Proof.
  induction domainNames as [|d rest IH]; intros H outputStr; simpl;
    [reflexivity|].
  rewrite <- (H d (or_introl eq_refl)).
  destruct (getCommandMap sourceRoot d); simpl; [|reflexivity].
  apply IH. intros d' Hd'. apply H. now right.
Qed.

Lemma fileText_stableText (headerBlock : string)
  (eventMaps : list (Map string)) (commandMaps : list (Map CommandTypes)) :
  fileText headerBlock eventMaps commandMaps =
  stableText headerBlock eventMaps commandMaps.
Proof.
  unfold fileText, stableText, eventsBlock, commandsBlock.
  change (map (renderEvent 2)) with (map stableEventLine).
  change (map (renderCommand 2)) with (map stableCommandLines).
  change (newline 2) with (LF ++ "    ").
  now rewrite !append_assoc.
Qed.

(** C6. The text the script writes depends on the tree through the list of
    the domains and the two maps of each domain only, and in no other way:
    two trees that give the same domains and the same maps, as two equal
    trees do, give the same text, character by character, or the same
    exception. The text is the header, then the fixed lines and the two
    blocks, with two spaces for each level of indentation after every line
    break, and with the entries domain after domain in the order of the
    domain list and, within a domain, in the insertion order of its map. *)
Theorem crdpStr_deterministic (headerBlock : string)
  (sourceRoot sourceRoot' : Node) :
  getCrdpDomainNames sourceRoot = getCrdpDomainNames sourceRoot' ->
  (forall domainNames d,
      getCrdpDomainNames sourceRoot = Ok domainNames -> In d domainNames ->
      getEventMap sourceRoot d = getEventMap sourceRoot' d) ->
  (forall domainNames d,
      getCrdpDomainNames sourceRoot = Ok domainNames -> In d domainNames ->
      getCommandMap sourceRoot d = getCommandMap sourceRoot' d) ->
  crdpStr headerBlock sourceRoot = crdpStr headerBlock sourceRoot' /\
  (forall text,
      crdpStr headerBlock sourceRoot = Ok text ->
      exists domainNames eventMaps commandMaps,
        getCrdpDomainNames sourceRoot = Ok domainNames /\
        Forall2 (fun d eventMap => getEventMap sourceRoot d = Ok eventMap)
                domainNames eventMaps /\
        Forall2 (fun d commandMap =>
                   getCommandMap sourceRoot d = Ok commandMap)
                domainNames commandMaps /\
        text = stableText headerBlock eventMaps commandMaps) /\
  (forall indentLevel,
      newline indentLevel = LF ++ repeat " " (2 * indentLevel)).
Proof.
  intros Hnames Hevents Hcommands. split; [|split].
  - unfold crdpStr. rewrite <- Hnames.
    destruct (getCrdpDomainNames sourceRoot) as [names|e]; simpl bind;
      [|reflexivity].
    unfold outputEventMap, outputCommandMap.
    rewrite (eventDomainLoop_ext sourceRoot sourceRoot' 2 names
               (fun d => Hevents names d eq_refl)).
    rewrite (commandDomainLoop_ext sourceRoot sourceRoot' 2 names
               (fun d => Hcommands names d eq_refl)).
    reflexivity.
  - intros text. unfold crdpStr.
    destruct (getCrdpDomainNames sourceRoot) as [names|e]; simpl bind;
      [|discriminate].
    destruct (outputEventMap sourceRoot names 2) as [events|e] eqn:E;
      simpl bind; [|discriminate].
    destruct (outputCommandMap sourceRoot names 2) as [commands|e] eqn:C;
      simpl bind; [|discriminate].
    intros H. injection H as <-.
    apply outputEventMap_Ok_iff in E as [eventMaps [He ->]].
    apply outputCommandMap_Ok_iff in C as [commandMaps [Hc ->]].
    exists names, eventMaps, commandMaps.
    split; [reflexivity|]. split; [exact He|]. split; [exact Hc|].
    rewrite <- fileText_stableText. unfold fileText.
    now rewrite !append_assoc.
  - apply newline_spaces.
Qed.

Lemma crdpStr_deterministic_witness :
  crdpStr "// header" Sample.sourceRoot =
    crdpStr "// header" Sample.sourceRoot /\
  crdpStr "// header" Sample.sourceRoot =
    crdpStr "// header" reorderedSourceRoot /\
  exists domainNames eventMaps commandMaps,
    getCrdpDomainNames Sample.sourceRoot = Ok domainNames /\
    Forall2 (fun d eventMap => getEventMap Sample.sourceRoot d = Ok eventMap)
            domainNames eventMaps /\
    Forall2 (fun d commandMap =>
               getCommandMap Sample.sourceRoot d = Ok commandMap)
            domainNames commandMaps /\
    crdpStr "// header" Sample.sourceRoot =
      Ok (stableText "// header" eventMaps commandMaps).
Proof.
  split; [|split].
  - apply (crdpStr_deterministic "// header" Sample.sourceRoot
             Sample.sourceRoot); reflexivity.
  - apply (crdpStr_deterministic "// header" Sample.sourceRoot
             reorderedSourceRoot).
    + reflexivity.
    + intros domainNames d H. injection H as <-.
      intros [<-|[]]. reflexivity.
    + intros domainNames d H. injection H as <-.
      intros [<-|[]]. reflexivity.
  - destruct (crdpStr_deterministic "// header" Sample.sourceRoot
                Sample.sourceRoot eq_refl (fun _ _ _ _ => eq_refl)
                (fun _ _ _ _ => eq_refl)) as [_ [Hform _]].
    destruct (Hform _ eq_refl)
      as [domainNames [eventMaps [commandMaps [Hn [He [Hc Ht]]]]]].
    exists domainNames, eventMaps, commandMaps.
    split; [exact Hn|]. split; [exact He|]. split; [exact Hc|].
    now rewrite <- Ht.
Defined.
